(** * pylibcheck: the module differ, the standard-library classifier and the
      driver loop of [pylibcheck.py], embedded in Rocq.

    Module names are Python [str] values.  They are represented by [string],
    every character standing for the code point of the same number (0..255).
    Sets of names ([set(initial)], [set(ignore)], [seen]) are [gset string].
    The interpreter state the script touches ([sys.path], [sys.modules], the
    files the import system looks at) is an explicit [world]; the calls into
    the import system are parameters of the development and leave a trace of
    events. *)

From Stdlib Require Import Ascii String List Sorted Permutation Bool Arith Lia.
From stdpp Require Import base decidable list gmap strings.

Import ListNotations.
Open Scope string_scope.
Open Scope list_scope.

(** ** Strings *)

(** [ch in s] for a one-character needle. *)
Fixpoint contains (ch : ascii) (s : string) : bool :=
  match s with
  | EmptyString => false
  | String c rest => if Ascii.eqb ch c then true else contains ch rest
  end.

(** [s.startswith(ch)] for a one-character prefix. *)
Definition startswith (ch : ascii) (s : string) : bool :=
  match s with
  | EmptyString => false
  | String c _ => Ascii.eqb c ch
  end.

(** [s.partition(sep)[0]]: the part of [s] before the first [sep], the whole
    of [s] when there is none. *)
Fixpoint partition_head (sep : ascii) (s : string) : string :=
  match s with
  | EmptyString => EmptyString
  | String c rest =>
      if Ascii.eqb c sep then EmptyString else String c (partition_head sep rest)
  end.

(** [s.endswith(suffix)]: some tail of [s] is [suffix]. *)
Fixpoint endswith (suffix s : string) : bool :=
  if String.eqb s suffix then true
  else match s with
       | EmptyString => false
       | String _ rest => endswith suffix rest
       end.

(** [str.lower] on one code point below 256: the letters A..Z and the
    upper-case letters of the Latin-1 block (U+00C0..U+00DE without the
    multiplication sign U+00D7) move up by 32, everything else stays. *)
Definition lower_char (c : ascii) : ascii :=
  let n := nat_of_ascii c in
  if (((65 <=? n) && (n <=? 90)) ||
      ((192 <=? n) && (n <=? 222) && negb (n =? 215)))%nat
  then ascii_of_nat (n + 32)
  else c.

Fixpoint lower (s : string) : string :=
  match s with
  | EmptyString => EmptyString
  | String c rest => String (lower_char c) (lower rest)
  end.

(** ** [list.sort(key=...)]

    Python's sort is stable and compares keys with [<] only.  The stable
    sorted arrangement of a list is unique, so the sort is embedded as the
    stable insertion sort: an element goes in front of the first element
    whose key is not smaller than its own. *)

Section Sort.
Context {A : Type} (key : A -> string).

Fixpoint insert_by (x : A) (l : list A) : list A :=
  match l with
  | [] => [x]
  | y :: r =>
      if String.ltb (key y) (key x) then y :: insert_by x r else x :: y :: r
  end.

Definition sort_by (l : list A) : list A := fold_right insert_by [] l.

(** the order the sort establishes: [key a <= key b] *)
Definition key_le (a b : A) : Prop := String.leb (key a) (key b) = true.
End Sort.

(** ** [compare] *)

(** [elem in initial or elem in ignore], on the two sets *)
Definition skipped (initial ignore : gset string) (elem : string) : bool :=
  bool_decide (elem ∈ initial) || bool_decide (elem ∈ ignore).

(** One turn of the [for elem in later] loop, on the pair of lists
    [(prefixed, unprefixed)]. *)
Definition compare_step (initial ignore : gset string)
    (acc : list string * list string) (elem : string)
  : list string * list string :=
  let '(prefixed, unprefixed) := acc in
  if skipped initial ignore elem then acc
  else if startswith "_" elem then (prefixed ++ [elem], unprefixed)
  else (prefixed, unprefixed ++ [elem]).

Definition compare (initial later ignore : list string) : list string :=
  let initial : gset string := list_to_set initial in
  let ignore : gset string := list_to_set ignore in
  let '(prefixed, unprefixed) :=
    fold_left (compare_step initial ignore) later ([], []) in
  let prefixed := sort_by lower prefixed in
  let unprefixed := sort_by lower unprefixed in
  unprefixed ++ prefixed.

(** ** The interpreter state and the effects of the script *)

(** The exceptions the script tells apart, each standing for its class and
    the subclasses of it. *)
Inductive exn : Type :=
| ValueError (msg : string)
| ImportError
| KeyError
| OtherError (name : string).

Definition is_ImportError (e : exn) : bool :=
  match e with ImportError => true | _ => false end.

(** How a call into the import system ends. *)
Inductive call_result : Type :=
| Done
| Failed (e : exn).

(** What the script reads and writes of the interpreter: [sys.path],
    the names in [sys.modules] in the order of the dict, [sys.argv], and
    [fs], all that the import system looks at besides. *)
Record world (FS : Type) : Type := World {
  sys_path : list string;
  sys_modules : list string;
  sys_argv : list string;
  fs : FS
}.
Arguments World {FS} _ _ _ _.
Arguments sys_path {FS} _.
Arguments sys_modules {FS} _.
Arguments sys_argv {FS} _.
Arguments fs {FS} _.

Definition with_sys_path {FS : Type} (p : list string) (w : world FS) : world FS :=
  World p (sys_modules w) (sys_argv w) (fs w).

(** What a run leaves behind, in order.  [CallStdlib] is a ghost event: it
    records that [stdlib] was entered and with which name. *)
Inductive event : Type :=
| CallStdlib (modname : string)
| SetSysPath (p : list string)
| FindModule (modname : string) (r : call_result)
| ImportModule (modname : string) (r : call_result)
| Print (line : string).

Inductive result (A : Type) : Type :=
| Return (a : A)
| Raise (e : exn).
Arguments Return {A} _.
Arguments Raise {A} _.

(** A computation: from the state before to how it ends, the state after
    and the events it emitted. *)
Definition M (FS A : Type) : Type := world FS -> result A * world FS * list event.

Definition after {FS A : Type} (t1 : list event)
    (x : result A * world FS * list event) : result A * world FS * list event :=
  let '(r, w, t2) := x in (r, w, t1 ++ t2).

#[global] Instance M_ret {FS : Type} : MRet (M FS) :=
  fun A a w => (Return a, w, []).

#[global] Instance M_bind {FS : Type} : MBind (M FS) :=
  fun A B k m w =>
    match m w with
    | (Return a, w1, t1) => after t1 (k a w1)
    | (Raise e, w1, t1) => (Raise e, w1, t1)
    end.

Definition raise {FS A : Type} (e : exn) : M FS A :=
  fun w => (Raise e, w, []).

Definition emit {FS : Type} (ev : event) : M FS unit :=
  fun w => (Return tt, w, [ev]).

(** [try: body / except ...: handler / else: els]; [handler e] is [None]
    when no [except] clause matches [e]. *)
Definition try_except_else {FS A B : Type} (body : M FS A)
    (handler : exn -> option (M FS B)) (els : A -> M FS B) : M FS B :=
  fun w =>
    match body w with
    | (Return a, w1, t1) => after t1 (els a w1)
    | (Raise e, w1, t1) =>
        match handler e with
        | Some h => after t1 (h w1)
        | None => (Raise e, w1, t1)
        end
    end.

(** [try: body / finally: fin]: [fin] runs however [body] ends, and the
    outcome of [body] stands unless [fin] raises. *)
Definition try_finally {FS A : Type} (body : M FS A) (fin : M FS unit) : M FS A :=
  fun w =>
    let '(r, w1, t1) := body w in
    match fin w1 with
    | (Return _, w2, t2) => (r, w2, t1 ++ t2)
    | (Raise e, w2, t2) => (Raise e, w2, t1 ++ t2)
    end.

Fixpoint for_each {FS A : Type} (l : list A) (body : A -> M FS unit) : M FS unit :=
  match l with
  | [] => mret tt
  | x :: rest => body x;; for_each rest body
  end.

Definition get_sys_path {FS : Type} : M FS (list string) :=
  fun w => (Return (sys_path w), w, []).

Definition set_sys_path {FS : Type} (p : list string) : M FS unit :=
  fun w => (Return tt, with_sys_path p w, [SetSysPath p]).

Definition get_sys_modules {FS : Type} : M FS (list string) :=
  fun w => (Return (sys_modules w), w, []).

Definition get_sys_argv {FS : Type} : M FS (list string) :=
  fun w => (Return (sys_argv w), w, []).

Definition print {FS : Type} (line : string) : M FS unit := emit (Print line).

Definition dquote : string := String "034"%char EmptyString.

(** ** Reading a trace *)

(** the names [stdlib] was called with *)
Fixpoint stdlib_calls (t : list event) : list string :=
  match t with
  | [] => []
  | CallStdlib n :: rest => n :: stdlib_calls rest
  | _ :: rest => stdlib_calls rest
  end.

(** the lookups made, each with how it ended *)
Fixpoint lookups (t : list event) : list (string * call_result) :=
  match t with
  | [] => []
  | FindModule n r :: rest => (n, r) :: lookups rest
  | _ :: rest => lookups rest
  end.

(** the values [sys.path] was set to *)
Fixpoint path_writes (t : list event) : list (list string) :=
  match t with
  | [] => []
  | SetSysPath p :: rest => p :: path_writes rest
  | _ :: rest => path_writes rest
  end.

(** the lines printed *)
Fixpoint printed (t : list event) : list string :=
  match t with
  | [] => []
  | Print line :: rest => line :: printed rest
  | _ :: rest => printed rest
  end.

(** the imports attempted, each with how it ended *)
Fixpoint imports (t : list event) : list (string * call_result) :=
  match t with
  | [] => []
  | ImportModule n r :: rest => (n, r) :: imports rest
  | _ :: rest => imports rest
  end.

(** the line the driver prints for an attempted import: one for an
    [ImportError], another for a [KeyError] or a [ValueError], none
    otherwise *)
Definition skip_lines (i : string * call_result) : list string :=
  match snd i with
  | Failed ImportError =>
      ["ImportError for " +:+ dquote +:+ fst i +:+ dquote +:+ ": skipping"]
  | Failed KeyError | Failed (ValueError _) =>
      ["Cannot import invalid name " +:+ dquote +:+ fst i +:+ dquote
       +:+ ": skipping"]
  | Failed (OtherError _) | Done => []
  end.

(** a lookup that ended in [ImportError]: [stdlib] answers [False] *)
Definition not_found (l : string * call_result) : bool :=
  match snd l with
  | Failed e => is_ImportError e
  | Done => false
  end.


(** the outcome of [stdlib] that goes with each way the lookup can end *)
Definition answer (r : call_result) : result bool :=
  match r with
  | Done => Return true
  | Failed e => if is_ImportError e then Return false else Raise e
  end.

(** The distinct elements of a list, each at its first occurrence. *)
Fixpoint first_occurrences (l : list string) : list string :=
  match l with
  | [] => []
  | x :: rest =>
      x :: List.filter (fun y => negb (String.eqb x y)) (first_occurrences rest)
  end.

(** [b not in seen] *)
Definition unseen (seen : gset string) (b : string) : bool :=
  bool_decide (b ∉ seen).

(** ** A small import system, for examples

    The files are pairs of a directory and the name of a module found in
    it; a lookup succeeds when some directory of [sys.path] holds the name,
    and an import of a known name adds it to [sys.modules]. *)

Definition toy_fs : Type := list (string * string).

Definition toy_has (files : toy_fs) (dirs : list string) (modname : string) : bool :=
  existsb (fun d =>
    existsb (fun f => String.eqb (fst f) d && String.eqb (snd f) modname) files)
    dirs.

Definition toy_find_module (modname : string) (w : world toy_fs)
  : call_result * world toy_fs :=
  (if toy_has (fs w) (sys_path w) modname then Done else Failed ImportError, w).

Definition toy_import_module (modname : string) (w : world toy_fs)
  : call_result * world toy_fs :=
  if toy_has (fs w) (sys_path w) modname
  then (Done,
        if existsb (String.eqb modname) (sys_modules w) then w
        else World (sys_path w) (sys_modules w ++ [modname]) (sys_argv w) (fs w))
  else (Failed ImportError, w).

(** A lookup that ends in [ValueError] for a name with a NUL character, as
    a lookup does whose file test rejects such a path ("embedded null
    byte"), and is [toy_find_module] for every other name. *)
Definition nul_find_module (modname : string) (w : world toy_fs)
  : call_result * world toy_fs :=
  if contains "000"%char modname
  then (Failed (ValueError "embedded null byte"), w)
  else toy_find_module modname w.

(** the name [a], NUL, [b]: it has no dot *)
Definition nul_name : string :=
  String "a" (String "000"%char (String "b" EmptyString)).

Definition toy_join (a b : string) : string := a +:+ "/" +:+ b.

Definition toy_isdir (d : string) : bool := String.eqb d "/usr/lib/python3".

Definition toy_world : world toy_fs :=
  World ["/site"; "/usr/lib/python3"] ["sys"] ["pylibcheck.py"; "requests"]
        [("/usr/lib/python3", "os"); ("/usr/lib/python3", "_thread");
         ("/site", "requests")].

(** ** The script *)

Section Script.
Context {FS : Type}.

(** [imp.find_module(modname)] and [importlib.import_module(modname)]:
    library code, taken as it comes.  Each may change the state in any
    way and ends normally or with an exception. *)
Context (imp_find_module : string -> world FS -> call_result * world FS).
Context (importlib_import_module : string -> world FS -> call_result * world FS).

(** [os.path.dirname(traceback.__file__)], [os.path.join] and
    [os.path.isdir] as evaluated when the script is loaded. *)
Context (BASEDIR : string).
Context (os_path_join : string -> string -> string).
Context (os_path_isdir : string -> bool).

Definition find_module (modname : string) : M FS unit :=
  fun w =>
    let '(r, w1) := imp_find_module modname w in
    (match r with Done => Return tt | Failed e => Raise e end,
     w1, [FindModule modname r]).

Definition import_module (modname : string) : M FS unit :=
  fun w =>
    let '(r, w1) := importlib_import_module modname w in
    (match r with Done => Return tt | Failed e => Raise e end,
     w1, [ImportModule modname r]).

Definition SUBDIRS : list string := ["lib-dynload"].

Definition DEFAULT_SYS_PATHS : list string :=
  List.filter os_path_isdir
    ([BASEDIR] ++ map (fun subdir => os_path_join BASEDIR subdir) SUBDIRS).

(** ['modname "%s" should be a top-level (non-dotted) name' % (modname,)] *)
Definition dotted_msg (modname : string) : string :=
  "modname " +:+ dquote +:+ modname +:+ dquote +:+
  " should be a top-level (non-dotted) name".

Definition stdlib (modname : string) (sys_path_arg : list string) : M FS bool :=
  emit (CallStdlib modname);;
  if contains "." modname then
    raise (ValueError (dotted_msg modname))
  else
    sys_path_orig ← get_sys_path;
    set_sys_path sys_path_arg;;
    try_finally
      (try_except_else (find_module modname)
         (fun e => if is_ImportError e then Some (mret false) else None)
         (fun _ => mret true))
      (set_sys_path sys_path_orig).

(** The loop of lines 123-132 on what is left of [newmods], with the
    current [non_stdlib] and [seen]. *)
Fixpoint classify (newmods : list string) (non_stdlib : list string)
    (seen : gset string) : M FS (list string) :=
  match newmods with
  | [] => mret non_stdlib
  | modname :: rest =>
      let basemodname := partition_head "." modname in
      if unseen seen basemodname then
        b ← stdlib basemodname DEFAULT_SYS_PATHS;
        classify rest
          (if negb b then non_stdlib ++ [basemodname] else non_stdlib)
          ({[basemodname]} ∪ seen)
      else classify rest non_stdlib seen
  end.

(** Lines 116-135: classify the new modules and print the others. *)
Definition report (newmods : list string) : M FS unit :=
  non_stdlib ← classify newmods [] ∅;
  for_each non_stdlib print.

Definition import_or_skip (modname : string) : M FS unit :=
  try_except_else (import_module modname)
    (fun e =>
       match e with
       | ImportError =>
           Some (print ("ImportError for " +:+ dquote +:+ modname +:+ dquote
                        +:+ ": skipping"))
       | KeyError | ValueError _ =>
           Some (print ("Cannot import invalid name " +:+ dquote +:+ modname
                        +:+ dquote +:+ ": skipping"))
       | OtherError _ => None
       end)
    mret.

Definition run (args : option (list string)) : M FS unit :=
  args ← match args with
         | None => argv ← get_sys_argv; mret (tail argv)
         | Some args => mret args
         end;
  before ← get_sys_modules;
  for_each args import_or_skip;;
  later ← get_sys_modules;
  let newmods := compare before later ["__mp_main__"] in
  match newmods with
  | [] => mret tt
  | _ :: _ => report newmods
  end.

End Script.

(** ** The entry point (lines 138-140) *)

Section Entry.
Context {FS : Type}.
Context (imp_find_module : string -> world FS -> call_result * world FS).
Context (importlib_import_module : string -> world FS -> call_result * world FS).
Context (BASEDIR : string).
Context (os_path_join : string -> string -> string).
Context (os_path_isdir : string -> bool).

(** [os.environ] *)
Context (environ : gmap string string).

(** [os.environ.get('_', '').endswith(('/ipython', '/ipython2', '/ipython3'))] *)
Definition launched_from_ipython : bool :=
  let launcher := default "" (environ !! "_") in
  existsb (fun suffix => endswith suffix launcher)
    ["/ipython"; "/ipython2"; "/ipython3"].

(** what the file does when it is loaded with [__name__] set to
    [dunder_name] *)
Definition main (dunder_name : string) : M FS unit :=
  if String.eqb dunder_name "__main__" && negb launched_from_ipython
  then run imp_find_module importlib_import_module BASEDIR os_path_join
         os_path_isdir None
  else mret tt.
End Entry.

(** ** Facts about the order on strings *)

Lemma ascii_compare_lt_trans (a b c : ascii) :
  Ascii.compare a b = Lt -> Ascii.compare b c = Lt -> Ascii.compare a c = Lt.
Proof.
  unfold Ascii.compare. rewrite !N.compare_lt_iff. lia.
Qed.

Lemma string_leb_trans (s1 s2 s3 : string) :
  String.leb s1 s2 = true -> String.leb s2 s3 = true -> String.leb s1 s3 = true.
Proof.
  unfold String.leb. revert s2 s3.
  induction s1 as [|a s1 IH]; intros [|b s2] [|c s3]; simpl; try congruence.
  destruct (Ascii.compare a b) eqn:Hab; try congruence.
  - apply Ascii.compare_eq_iff in Hab. subst b.
    destruct (Ascii.compare a c); try congruence. apply IH.
  - destruct (Ascii.compare b c) eqn:Hbc; try congruence.
    + apply Ascii.compare_eq_iff in Hbc. subst c. now rewrite Hab.
    + now rewrite (ascii_compare_lt_trans _ _ _ Hab Hbc).
Qed.

Lemma string_ltb_leb (s1 s2 : string) :
  String.ltb s1 s2 = true -> String.leb s1 s2 = true.
Proof.
  unfold String.ltb, String.leb.
  destruct (String.compare s1 s2); intros; congruence.
Qed.

Lemma string_ltb_false_leb (s1 s2 : string) :
  String.ltb s1 s2 = false -> String.leb s2 s1 = true.
Proof.
  unfold String.ltb, String.leb. rewrite (String.compare_antisym s2 s1).
  destruct (String.compare s1 s2); simpl; intros; congruence.
Qed.

(** ** Facts about the sort *)

Section SortFacts.
Context {A : Type} (key : A -> string).

Lemma key_le_trans (a b c : A) :
  key_le key a b -> key_le key b c -> key_le key a c.
Proof. unfold key_le. apply string_leb_trans. Qed.

Lemma insert_by_perm (x : A) (l : list A) :
  Permutation (insert_by key x l) (x :: l).
Proof.
  induction l as [|y r IH]; simpl; [reflexivity|].
  destruct (String.ltb (key y) (key x)); [|reflexivity].
  rewrite IH. apply perm_swap.
Qed.

Lemma sort_by_perm (l : list A) : Permutation (sort_by key l) l.
Proof.
  induction l as [|x r IH]; simpl; [reflexivity|].
  rewrite insert_by_perm. now constructor.
Qed.

Lemma insert_by_sorted (x : A) (l : list A) :
  StronglySorted (key_le key) l ->
  StronglySorted (key_le key) (insert_by key x l).
Proof.
  induction 1 as [|y r Hr IH Hy]; simpl.
  - repeat constructor.
  - destruct (String.ltb (key y) (key x)) eqn:Hlt.
    + constructor; [exact IH|].
      eapply Permutation_Forall; [symmetry; apply insert_by_perm|].
      constructor; [|exact Hy].
      now apply string_ltb_leb.
    + assert (Hxy : key_le key x y) by now apply string_ltb_false_leb.
      constructor; [now constructor|].
      constructor; [exact Hxy|].
      eapply List.Forall_impl; [|exact Hy].
      intros z Hz. now apply (key_le_trans x y z).
Qed.

Lemma sort_by_sorted (l : list A) : StronglySorted (key_le key) (sort_by key l).
Proof.
  induction l as [|x r IH]; simpl; [constructor|].
  now apply insert_by_sorted.
Qed.

End SortFacts.

(** ** Facts about [compare] *)

(** what the loop of [compare] leaves in [prefixed] and [unprefixed] *)
Lemma compare_loop (initial ignore : gset string) (later pre unpre : list string) :
  let kept := List.filter (fun e => negb (skipped initial ignore e)) later in
  fold_left (compare_step initial ignore) later (pre, unpre) =
  (pre ++ List.filter (startswith "_") kept,
   unpre ++ List.filter (fun e => negb (startswith "_" e)) kept).
Proof.
  revert pre unpre. induction later as [|e later IH]; intros pre unpre; simpl.
  - now rewrite !app_nil_r.
  - change (bool_decide (e ∈ initial) || bool_decide (e ∈ ignore))
      with (skipped initial ignore e).
    destruct (skipped initial ignore e); simpl.
    + apply IH.
    + destruct (startswith "_" e); simpl; rewrite IH, <- app_assoc; reflexivity.
Qed.

Lemma compare_unfold (initial later ignore : list string) :
  let kept :=
    List.filter
      (fun e => negb (skipped (list_to_set initial) (list_to_set ignore) e))
      later in
  compare initial later ignore =
  sort_by lower (List.filter (fun e => negb (startswith "_" e)) kept) ++
  sort_by lower (List.filter (startswith "_") kept).
Proof.
  unfold compare. rewrite compare_loop. reflexivity.
Qed.

Lemma filter_split_perm {A : Type} (f : A -> bool) (l : list A) :
  Permutation (List.filter (fun x => negb (f x)) l ++ List.filter f l) l.
Proof.
  induction l as [|x l IH]; simpl; [reflexivity|].
  destruct (f x); simpl.
  - rewrite <- Permutation_middle. now constructor.
  - now constructor.
Qed.

Lemma kept_filter (initial ignore later : list string) :
  List.filter
    (fun e => negb (skipped (list_to_set initial) (list_to_set ignore) e)) later
  = filter (fun e => (e ∉ initial) ∧ (e ∉ ignore)) later.
Proof.
  induction later as [|e later IH]; [reflexivity|].
  rewrite filter_cons. simpl. rewrite IH. unfold skipped.
  destruct (decide ((e ∉ initial) ∧ (e ∉ ignore))) as [[Hi Hg]|Hn].
  - rewrite !bool_decide_eq_false_2; [reflexivity| |];
      rewrite elem_of_list_to_set; assumption.
  - destruct (bool_decide (e ∈ (list_to_set initial : gset string))) eqn:Hi;
      [reflexivity|].
    destruct (bool_decide (e ∈ (list_to_set ignore : gset string))) eqn:Hg;
      [reflexivity|].
    apply bool_decide_eq_false in Hi, Hg.
    rewrite elem_of_list_to_set in Hi, Hg. tauto.
Qed.

Lemma filter_Forall_true {A : Type} (f : A -> bool) (l : list A) :
  Forall (fun x => f x = true) (List.filter f l).
Proof.
  apply List.Forall_forall. intros x Hx. now apply List.filter_In in Hx.
Qed.

(** the shape of every result of [compare] *)
Lemma compare_shape (initial later ignore : list string) :
  exists unprefixed prefixed : list string,
    compare initial later ignore = unprefixed ++ prefixed /\
    Forall (fun e => startswith "_" e = false) unprefixed /\
    Forall (fun e => startswith "_" e = true) prefixed /\
    StronglySorted (key_le lower) unprefixed /\
    StronglySorted (key_le lower) prefixed.
Proof.
  rewrite compare_unfold. cbv zeta.
  eexists; eexists; split; [reflexivity|].
  split; [|split; [|split; apply sort_by_sorted]].
  - eapply Permutation_Forall; [symmetry; apply sort_by_perm|].
    eapply List.Forall_impl; [|apply filter_Forall_true].
    intros e. simpl. now destruct (startswith "_" e).
  - eapply Permutation_Forall; [symmetry; apply sort_by_perm|].
    apply filter_Forall_true.
Qed.

Lemma compare_perm (initial later ignore : list string) :
  Permutation (compare initial later ignore)
              (filter (fun e => (e ∉ initial) ∧ (e ∉ ignore)) later).
Proof.
  rewrite compare_unfold. cbv zeta.
  rewrite !sort_by_perm, filter_split_perm. now rewrite kept_filter.
Qed.

Lemma strongly_sorted_lookup {A : Type} (R : A -> A -> Prop) (l : list A) :
  StronglySorted R l ->
  forall (i j : nat) (a b : A),
    l !! i = Some a -> l !! j = Some b -> i < j -> R a b.
Proof.
  induction 1 as [|x l Hl IH Hx]; intros i j a b Hi Hj Hlt.
  - discriminate.
  - destruct j as [|j]; [lia|]. simpl in Hj.
    destruct i as [|i]; simpl in Hi.
    + injection Hi as <-.
      rewrite List.Forall_forall in Hx. apply Hx.
      apply list_elem_of_In. now apply (list_elem_of_lookup_2 l j).
    + apply (IH i j); [assumption..|lia].
Qed.

(** C1: [compare initial later ignore] holds exactly the elements of [later]
    that are neither in [initial] nor in [ignore], as often as [later] has
    them; it is the names without a leading underscore followed by the names
    with one, each group in the order of the lower-cased names; and no element
    of [ignore] is in it. *)
Theorem compare_exact (initial later ignore : list string) :
  Permutation (compare initial later ignore)
              (filter (fun e => (e ∉ initial) ∧ (e ∉ ignore)) later) /\
  (exists unprefixed prefixed : list string,
      compare initial later ignore = unprefixed ++ prefixed /\
      Forall (fun e => startswith "_" e = false) unprefixed /\
      Forall (fun e => startswith "_" e = true) prefixed /\
      StronglySorted (key_le lower) unprefixed /\
      StronglySorted (key_le lower) prefixed) /\
  (forall x : string, x ∈ compare initial later ignore -> x ∉ ignore).
Proof.
  split; [apply compare_perm|]. split; [apply compare_shape|].
  intros x Hx. rewrite (compare_perm initial later ignore) in Hx.
  apply list_elem_of_filter in Hx. tauto.
Qed.

(** C5: on the snapshots [os, sys] and [os, sys, requests, requests.models,
    _thread, __mp_main__] with [__mp_main__] ignored, [compare] returns
    [requests, requests.models, _thread], in this order. *)
Theorem compare_scenario :
  compare ["os"; "sys"]
          ["os"; "sys"; "requests"; "requests.models"; "_thread"; "__mp_main__"]
          ["__mp_main__"]
  = ["requests"; "requests.models"; "_thread"].
Proof. vm_compute. reflexivity. Qed.

(** C6: in a result of [compare], an element without a leading underscore
    stands before every element with one, and of two elements of the same
    group the earlier has the smaller or equal lower-cased name. *)
Theorem compare_ordering (initial later ignore : list string)
    (i j : nat) (a b : string) :
  (compare initial later ignore) !! i = Some a ->
  (compare initial later ignore) !! j = Some b ->
  (startswith "_" a = false -> startswith "_" b = true -> i < j) /\
  (i < j -> startswith "_" a = startswith "_" b -> key_le lower a b).
Proof.
  destruct (compare_shape initial later ignore)
    as (u & p & -> & Hu & Hp & Su & Sp).
  rewrite List.Forall_forall in Hu, Hp.
  intros Hi Hj.
  assert (Hin : forall k x, (u ++ p) !! k = Some x ->
            (k < length u /\ u !! k = Some x /\ startswith "_" x = false) \/
            (length u <= k /\ p !! (k - length u) = Some x /\
             startswith "_" x = true)).
  { intros k x Hk. destruct (Nat.lt_ge_cases k (length u)) as [Hlt|Hge].
    - left. rewrite lookup_app_l in Hk by assumption.
      repeat split; try assumption.
      apply Hu, list_elem_of_In. now apply (list_elem_of_lookup_2 u k).
    - right. rewrite lookup_app_r in Hk by assumption.
      repeat split; try assumption.
      apply Hp, list_elem_of_In.
      now apply (list_elem_of_lookup_2 p (k - length u)). }
  destruct (Hin i a Hi) as [(Hil & Hia & Ha)|(Hil & Hia & Ha)];
    destruct (Hin j b Hj) as [(Hjl & Hjb & Hb)|(Hjl & Hjb & Hb)];
    split; intros; try congruence; try lia.
  - apply (strongly_sorted_lookup _ u Su i j); assumption.
  - apply (strongly_sorted_lookup _ p Sp (i - length u) (j - length u));
      [assumption..|lia].
Qed.

Lemma compare_ordering_witness :
  (compare ["os"] ["os"; "_b"; "Zed"; "abc"] []) !! 0 = Some "abc" /\
  (compare ["os"] ["os"; "_b"; "Zed"; "abc"] []) !! 2 = Some "_b" /\
  ((startswith "_" "abc" = false -> startswith "_" "_b" = true -> 0 < 2) /\
   (0 < 2 -> startswith "_" "abc" = startswith "_" "_b" ->
    key_le lower "abc" "_b")).
Proof.
  split; [vm_compute; reflexivity|]. split; [vm_compute; reflexivity|].
  apply (compare_ordering ["os"] ["os"; "_b"; "Zed"; "abc"] [] 0 2 "abc" "_b");
    vm_compute; reflexivity.
Defined.

(** C7: [compare s s ignore] is empty for every [s] and [ignore]; and an
    empty [later], so also empty inputs, gives an empty result. *)
Theorem compare_same_empty (s initial ignore : list string) :
  compare s s ignore = [] /\ compare initial [] ignore = [].
Proof.
  split; [|reflexivity].
  rewrite compare_unfold. cbv zeta.
  assert (Hk : List.filter
            (fun e => negb (skipped (list_to_set s) (list_to_set ignore) e)) s
          = []).
  { rewrite kept_filter.
    destruct (filter (fun e => (e ∉ s) ∧ (e ∉ ignore)) s) as [|x l] eqn:Hf;
      [reflexivity|].
    assert (Hx : x ∈ filter (fun e => (e ∉ s) ∧ (e ∉ ignore)) s)
      by (rewrite Hf; apply list_elem_of_here).
    apply list_elem_of_filter in Hx. tauto. }
  rewrite Hk. reflexivity.
Qed.

(** ** More about the sort and [compare] *)

Lemma string_compare_refl (s : string) : String.compare s s = Eq.
Proof.
  induction s as [|c s IH]; [reflexivity|].
  cbn [String.compare]. unfold Ascii.compare. now rewrite N.compare_refl.
Qed.

Lemma string_ltb_irrefl (s : string) : String.ltb s s = false.
Proof. unfold String.ltb. now rewrite string_compare_refl. Qed.

Lemma key_le_not_ltb (s1 s2 : string) :
  String.leb s1 s2 = true -> String.ltb s2 s1 = false.
Proof.
  unfold String.ltb, String.leb. rewrite (String.compare_antisym s2 s1).
  destruct (String.compare s1 s2); simpl; intros; congruence.
Qed.

Section SortMore.
Context {A : Type} (key : A -> string).

(** the elements of one key come out of an insertion in the order in which
    they went in *)
Lemma insert_by_same_key (k : string) (x : A) (l : list A) :
  List.filter (fun e => String.eqb (key e) k) (insert_by key x l)
  = List.filter (fun e => String.eqb (key e) k) (x :: l).
Proof.
  induction l as [|y r IH]; [reflexivity|].
  cbn [insert_by].
  destruct (String.ltb (key y) (key x)) eqn:Hlt; [|reflexivity].
  cbn [List.filter] in *. rewrite IH.
  destruct (String.eqb_spec (key x) k) as [Hx|Hx]; [|reflexivity].
  destruct (String.eqb_spec (key y) k) as [Hy|Hy]; [|reflexivity].
  rewrite Hx, Hy, string_ltb_irrefl in Hlt. discriminate.
Qed.

Lemma sort_by_same_key (k : string) (l : list A) :
  List.filter (fun e => String.eqb (key e) k) (sort_by key l)
  = List.filter (fun e => String.eqb (key e) k) l.
Proof.
  induction l as [|x r IH]; [reflexivity|].
  cbn [sort_by fold_right]. rewrite insert_by_same_key.
  cbn [List.filter]. fold (sort_by key r). now rewrite IH.
Qed.

Lemma sort_by_sorted_id (l : list A) :
  StronglySorted (key_le key) l -> sort_by key l = l.
Proof.
  induction 1 as [|x r Hr IH Hx]; [reflexivity|].
  cbn [sort_by fold_right]. fold (sort_by key r). rewrite IH.
  destruct r as [|y r']; [reflexivity|].
  cbn [insert_by]. inversion Hx as [|? ? Hxy _]; subst.
  now rewrite (key_le_not_ltb _ _ Hxy).
Qed.
End SortMore.

Lemma filter_all {A : Type} (f : A -> bool) (l : list A) :
  Forall (fun x => f x = true) l -> List.filter f l = l.
Proof.
  induction 1 as [|x l Hx _ IH]; [reflexivity|].
  cbn [List.filter]. now rewrite Hx, IH.
Qed.

Lemma filter_none {A : Type} (f : A -> bool) (l : list A) :
  Forall (fun x => f x = false) l -> List.filter f l = [].
Proof.
  induction 1 as [|x l Hx _ IH]; [reflexivity|].
  cbn [List.filter]. now rewrite Hx.
Qed.

Lemma lower_char_underscore (c : ascii) :
  Ascii.eqb (lower_char c) "_" = Ascii.eqb c "_".
Proof.
  destruct c as [[] [] [] [] [] [] [] []]; vm_compute; reflexivity.
Qed.

Lemma lower_startswith_underscore (e : string) :
  startswith "_" (lower e) = startswith "_" e.
Proof.
  destruct e as [|c e]; [reflexivity|].
  cbn [lower startswith]. apply lower_char_underscore.
Qed.

Lemma filter_filter_within {A : Type} (f g : A -> bool) (l : list A) :
  (forall e, f e = true -> g e = true) ->
  List.filter f (List.filter g l) = List.filter f l.
Proof.
  intros Hfg. induction l as [|e l IH]; [reflexivity|]. cbn [List.filter].
  destruct (g e) eqn:Hg; cbn [List.filter]; rewrite IH; [reflexivity|].
  destruct (f e) eqn:Hf; [|reflexivity].
  rewrite (Hfg e Hf) in Hg. discriminate.
Qed.

Lemma filter_filter_without {A : Type} (f g : A -> bool) (l : list A) :
  (forall e, f e = true -> g e = false) ->
  List.filter f (List.filter g l) = [].
Proof.
  intros Hfg. induction l as [|e l IH]; [reflexivity|]. cbn [List.filter].
  destruct (g e) eqn:Hg; cbn [List.filter]; [|exact IH].
  destruct (f e) eqn:Hf; [|exact IH].
  rewrite (Hfg e Hf) in Hg. discriminate.
Qed.

(** the names with lower-cased name [k] are all in one group *)
Lemma same_key_one_group (k : string) (l : list string) :
  List.filter (fun e => String.eqb (lower e) k)
    (List.filter (fun e => negb (startswith "_" e)) l) ++
  List.filter (fun e => String.eqb (lower e) k)
    (List.filter (startswith "_") l)
  = List.filter (fun e => String.eqb (lower e) k) l.
Proof.
  assert (Hk : forall e, String.eqb (lower e) k = true ->
                         startswith "_" e = startswith "_" k).
  { intros e He. apply String.eqb_eq in He. subst k.
    symmetry. apply lower_startswith_underscore. }
  destruct (startswith "_" k) eqn:Hu.
  - rewrite filter_filter_without, filter_filter_within; [reflexivity|exact Hk|].
    intros e He. now rewrite (Hk e He).
  - rewrite filter_filter_within, filter_filter_without;
      [apply app_nil_r|exact Hk|].
    intros e He. now rewrite (Hk e He).
Qed.

(** X1: names of [later] that differ in case only (one lower-cased name
    [k]) stand in the result of [compare] in the order they have in
    [later]. *)
Theorem compare_stable (initial later ignore : list string) (k : string) :
  List.filter (fun e => String.eqb (lower e) k) (compare initial later ignore)
  = List.filter (fun e => String.eqb (lower e) k)
      (filter (fun e => (e ∉ initial) ∧ (e ∉ ignore)) later).
Proof.
  rewrite compare_unfold. cbv zeta.
  rewrite List.filter_app, !sort_by_same_key, same_key_one_group.
  now rewrite kept_filter.
Qed.

(** every element of a result of [compare] passes the test of the loop *)
Lemma compare_kept (initial later ignore : list string) :
  Forall (fun e => negb (skipped (list_to_set initial) (list_to_set ignore) e)
                   = true)
         (compare initial later ignore).
Proof.
  rewrite compare_unfold. cbv zeta.
  eapply Permutation_Forall.
  - symmetry. rewrite !sort_by_perm. apply filter_split_perm.
  - apply filter_Forall_true.
Qed.

(** X2: a result of [compare], compared again with the same [initial] and
    [ignore], comes back as it is. *)
Theorem compare_idempotent (initial later ignore : list string) :
  compare initial (compare initial later ignore) ignore
  = compare initial later ignore.
Proof.
  pose proof (compare_kept initial later ignore) as Hkept.
  destruct (compare_shape initial later ignore)
    as (u & p & Hr & Hu & Hp & Su & Sp).
  rewrite (compare_unfold initial (compare initial later ignore) ignore).
  cbv zeta. rewrite (filter_all _ _ Hkept), Hr, !List.filter_app.
  assert (Hu' : Forall (fun e => negb (startswith "_" e) = true) u).
  { eapply List.Forall_impl; [|exact Hu]. intros e He. cbv beta in He.
    now rewrite He. }
  assert (Hp' : Forall (fun e => negb (startswith "_" e) = false) p).
  { eapply List.Forall_impl; [|exact Hp]. intros e He. cbv beta in He.
    now rewrite He. }
  rewrite (filter_all _ u Hu'), (filter_none _ p Hp'),
    (filter_none _ u Hu), (filter_all _ p Hp), app_nil_r.
  cbn [app]. now rewrite !sort_by_sorted_id.
Qed.

(** X3: [compare] looks at [initial] and [ignore] only through the set of
    the names in one or the other: two pairs with the same names give the
    same result. *)
Theorem compare_same_names (initial ignore initial' ignore' later : list string) :
  (forall x : string, x ∈ initial \/ x ∈ ignore <-> x ∈ initial' \/ x ∈ ignore') ->
  compare initial later ignore = compare initial' later ignore'.
Proof.
  intros Hsame. rewrite !compare_unfold. cbv zeta.
  assert (Hk : forall e,
    skipped (list_to_set initial) (list_to_set ignore) e
    = skipped (list_to_set initial') (list_to_set ignore') e).
  { intros e. unfold skipped. rewrite <- !bool_decide_or.
    apply bool_decide_ext. rewrite !elem_of_list_to_set. apply Hsame. }
  assert (Hf : List.filter (fun e =>
                 negb (skipped (list_to_set initial) (list_to_set ignore) e)) later
               = List.filter (fun e =>
                 negb (skipped (list_to_set initial') (list_to_set ignore') e))
                 later).
  { apply List.filter_ext. intros e. now rewrite Hk. }
  now rewrite Hf.
Qed.

(** X4: the result of [compare] is never longer than [later], and with
    nothing to leave out it is a rearrangement of [later]. *)
Theorem compare_length (initial later ignore : list string) :
  length (compare initial later ignore) <= length later /\
  Permutation (compare [] later []) later.
Proof.
  split.
  - rewrite (Permutation_length (compare_perm initial later ignore)).
    apply length_filter.
  - rewrite compare_perm.
    assert (H : filter (fun e : string => (e ∉ []) ∧ (e ∉ [])) later = later).
    { induction later as [|e l IH]; [reflexivity|].
      rewrite filter_cons_True; [now rewrite IH|].
      split; apply not_elem_of_nil. }
    now rewrite H.
Qed.

(** ** Facts about top-level names *)

Lemma partition_head_no_dot (s : string) :
  contains "." (partition_head "." s) = false.
Proof.
  induction s as [|c s IH]; cbn [contains partition_head]; [reflexivity|].
  destruct (Ascii.eqb c ".") eqn:Hc; cbn [contains]; [reflexivity|].
  rewrite Ascii.eqb_sym, Hc. exact IH.
Qed.

Lemma partition_head_id (s : string) :
  contains "." s = false -> partition_head "." s = s.
Proof.
  induction s as [|c s IH]; cbn [contains partition_head]; [reflexivity|].
  rewrite (Ascii.eqb_sym c ".").
  destruct (Ascii.eqb "." c); [discriminate|].
  intros H. now rewrite IH.
Qed.

Lemma first_occurrences_elem (l : list string) (x : string) :
  In x (first_occurrences l) <-> In x l.
Proof.
  induction l as [|y l IH]; simpl; [reflexivity|].
  rewrite List.filter_In, IH.
  destruct (String.eqb_spec y x) as [->|Hne]; simpl; [tauto|].
  split; [tauto|]. intros [H|H]; [contradiction|tauto].
Qed.

Lemma first_occurrences_NoDup (l : list string) : List.NoDup (first_occurrences l).
Proof.
  induction l as [|y l IH]; simpl; constructor.
  - rewrite List.filter_In, String.eqb_refl. simpl. intros [_ H]. discriminate.
  - now apply List.NoDup_filter.
Qed.

Lemma unseen_empty (l : list string) : List.filter (unseen ∅) l = l.
Proof.
  induction l as [|y l IH]; simpl; [reflexivity|].
  unfold unseen at 1. rewrite bool_decide_eq_true_2 by set_solver.
  now rewrite IH.
Qed.

Lemma unseen_known (seen : gset string) (b : string) (l : list string) :
  b ∈ seen ->
  List.filter (unseen seen) (List.filter (fun y => negb (String.eqb b y)) l)
  = List.filter (unseen seen) l.
Proof.
  intros Hb. induction l as [|y l IH]; simpl; [reflexivity|].
  destruct (String.eqb_spec b y) as [<-|Hne]; simpl.
  - unfold unseen at 2. rewrite bool_decide_eq_false_2 by tauto. exact IH.
  - now rewrite IH.
Qed.

Lemma unseen_fresh (seen : gset string) (b : string) (l : list string) :
  List.filter (unseen seen) (List.filter (fun y => negb (String.eqb b y)) l)
  = List.filter (unseen ({[b]} ∪ seen)) l.
Proof.
  induction l as [|y l IH]; [reflexivity|].
  cbn [List.filter].
  destruct (String.eqb_spec b y) as [<-|Hne]; cbn [negb List.filter].
  - assert (Hu : unseen ({[b]} ∪ seen) b = false)
      by (unfold unseen; apply bool_decide_eq_false_2; set_solver).
    rewrite Hu. exact IH.
  - assert (Hu : unseen ({[b]} ∪ seen) y = unseen seen y).
    { unfold unseen. apply bool_decide_ext.
      rewrite elem_of_union, elem_of_singleton. intuition congruence. }
    rewrite Hu, IH. reflexivity.
Qed.

(** X16: the part of a name before its first dot has no dot; a name
    without a dot is its own top-level name, a name with one is its
    top-level name, a dot and a rest; and reducing twice is reducing
    once. *)
Theorem partition_head_top_level (s : string) :
  contains "." (partition_head "." s) = false /\
  (if contains "." s
   then exists rest : string, s = partition_head "." s +:+ "." +:+ rest
   else partition_head "." s = s) /\
  partition_head "." (partition_head "." s) = partition_head "." s.
Proof.
  split; [apply partition_head_no_dot|]. split.
  - induction s as [|c s IH]; cbn [contains partition_head]; [reflexivity|].
    rewrite (Ascii.eqb_sym c ".").
    destruct (Ascii.eqb_spec "." c) as [<-|Hc].
    + exists s. reflexivity.
    + destruct (contains "." s).
      * destruct IH as [rest IH]. exists rest.
        change (String c s = String c (partition_head "." s +:+ "." +:+ rest)).
        now f_equal.
      * now rewrite IH.
  - apply partition_head_id, partition_head_no_dot.
Qed.

Lemma default_sys_paths_unfold (BASEDIR : string)
    (os_path_join : string -> string -> string) (os_path_isdir : string -> bool) :
  DEFAULT_SYS_PATHS BASEDIR os_path_join os_path_isdir
  = List.filter os_path_isdir [BASEDIR; os_path_join BASEDIR "lib-dynload"].
Proof. reflexivity. Qed.

(** ** Facts about [endswith] and about traces *)

Lemma endswith_unfold (suffix s : string) :
  endswith suffix s =
  if String.eqb s suffix then true
  else match s with
       | EmptyString => false
       | String _ rest => endswith suffix rest
       end.
Proof. destruct s; reflexivity. Qed.

Lemma endswith_app (p suffix : string) : endswith suffix (p +:+ suffix) = true.
Proof.
  induction p as [|c p IH]; cbn [String.append]; rewrite endswith_unfold.
  - now rewrite String.eqb_refl.
  - destruct (String.eqb _ suffix); [reflexivity|exact IH].
Qed.

Lemma endswith_elim (suffix s : string) :
  endswith suffix s = true -> exists p : string, s = p +:+ suffix.
Proof.
  induction s as [|c s IH]; rewrite endswith_unfold.
  - destruct (String.eqb_spec EmptyString suffix) as [<-|_]; [|discriminate].
    intros _. now exists EmptyString.
  - destruct (String.eqb_spec (String c s) suffix) as [<-|_].
    + intros _. now exists EmptyString.
    + intros H. destruct (IH H) as [p ->]. now exists (String c p).
Qed.

Lemma imports_app (t1 t2 : list event) :
  imports (t1 ++ t2) = imports t1 ++ imports t2.
Proof.
  induction t1 as [|[] t1 IH]; simpl; now rewrite ?IH.
Qed.

Lemma path_writes_app (t1 t2 : list event) :
  path_writes (t1 ++ t2) = path_writes t1 ++ path_writes t2.
Proof.
  induction t1 as [|[] t1 IH]; simpl; now rewrite ?IH.
Qed.

Lemma trace_of_prints_more (lines : list string) :
  imports (map Print lines) = [] /\ path_writes (map Print lines) = [].
Proof.
  induction lines as [|l lines [H1 H2]]; simpl; [now split|].
  now rewrite H1, H2.
Qed.

Lemma NoDup_map_filter {A B : Type} (g : A -> B) (f : A -> bool) (l : list A) :
  List.NoDup (map g l) -> List.NoDup (map g (List.filter f l)).
Proof.
  induction l as [|x l IH]; [trivial|].
  cbn [map List.filter]. intros H. inversion H as [|? ? Hx Hl]; subst.
  destruct (f x); [|now apply IH].
  cbn [map]. constructor; [|now apply IH].
  intros Hin. apply Hx. apply in_map_iff in Hin.
  destruct Hin as (y & Hy & Hin). apply List.filter_In in Hin.
  apply in_map_iff. exists y. now split.
Qed.

Lemma In_map_filter {A B : Type} (g : A -> B) (f : A -> bool) (l : list A)
    (b : B) :
  In b (map g (List.filter f l)) -> In b (map g l).
Proof.
  intros Hin. apply in_map_iff in Hin. destruct Hin as (y & Hy & Hin).
  apply List.filter_In in Hin. apply in_map_iff. exists y. now split.
Qed.

(** when every name of [later] is in [initial] or in [ignore], nothing is
    new *)
Lemma compare_nothing_new (initial later ignore : list string) :
  (forall x : string, x ∈ later -> x ∈ initial \/ x ∈ ignore) ->
  compare initial later ignore = [].
Proof.
  intros Hold. rewrite compare_unfold. cbv zeta.
  rewrite (filter_none _ later); [reflexivity|].
  apply List.Forall_forall. intros x Hx. unfold skipped.
  apply list_elem_of_In in Hx.
  destruct (Hold x Hx) as [Hi|Hg].
  - rewrite (bool_decide_eq_true_2 (x ∈ (list_to_set initial : gset string)));
      [reflexivity|]. now apply elem_of_list_to_set.
  - rewrite (bool_decide_eq_true_2 (x ∈ (list_to_set ignore : gset string)));
      [|now apply elem_of_list_to_set].
    now destruct (bool_decide _).
Qed.

(** ** Facts about the script *)

Section ScriptFacts.
#[local] Set Default Proof Using "Type".
Context {FS : Type}.
Context (imp_find_module : string -> world FS -> call_result * world FS).
Context (importlib_import_module : string -> world FS -> call_result * world FS).
Context (BASEDIR : string).
Context (os_path_join : string -> string -> string).
Context (os_path_isdir : string -> bool).

Local Abbreviation stdlib := (stdlib imp_find_module) (only parsing).
Local Abbreviation DEFAULT_SYS_PATHS :=
  (DEFAULT_SYS_PATHS BASEDIR os_path_join os_path_isdir) (only parsing).
Local Abbreviation classify :=
  (classify imp_find_module BASEDIR os_path_join os_path_isdir) (only parsing).
Local Abbreviation report :=
  (report imp_find_module BASEDIR os_path_join os_path_isdir) (only parsing).
Local Abbreviation import_or_skip :=
  (import_or_skip importlib_import_module) (only parsing).
Local Abbreviation run :=
  (run imp_find_module importlib_import_module BASEDIR os_path_join
     os_path_isdir) (only parsing).

(** ** Facts about [stdlib] *)

Lemma stdlib_dotted (modname : string) (sp : list string) (w : world FS) :
  contains "." modname = true ->
  stdlib modname sp w =
  (Raise (ValueError (dotted_msg modname)), w, [CallStdlib modname]).
Proof.
  intros Hdot. unfold stdlib, mbind, M_bind, emit. simpl.
  rewrite Hdot. reflexivity.
Qed.

Lemma stdlib_top_level (modname : string) (sp : list string) (w : world FS) :
  contains "." modname = false ->
  stdlib modname sp w =
  (answer (fst (imp_find_module modname (with_sys_path sp w))),
   with_sys_path (sys_path w) (snd (imp_find_module modname (with_sys_path sp w))),
   [CallStdlib modname; SetSysPath sp;
    FindModule modname (fst (imp_find_module modname (with_sys_path sp w)));
    SetSysPath (sys_path w)]).
Proof.
  intros Hdot.
  unfold stdlib, mbind, M_bind, emit, get_sys_path, set_sys_path, try_finally,
    try_except_else, find_module. simpl.
  rewrite Hdot. simpl.
  destruct (imp_find_module modname (with_sys_path sp w)) as [[|e] w1]; simpl;
    [reflexivity|].
  destruct (is_ImportError e); reflexivity.
Qed.

(** C2: for a name with a dot [stdlib] raises [ValueError]; for a name
    without one it ends as the lookup makes it end: [True] when the module
    is found, [False] on [ImportError], and any other exception of the
    lookup raised on; so it raises a [ValueError] exactly when the lookup
    itself ends in that [ValueError]. *)
Theorem stdlib_value_error (modname : string) (sp : list string) (w : world FS) :
  (contains "." modname = true ->
   fst (fst (stdlib modname sp w)) = Raise (ValueError (dotted_msg modname))) /\
  (contains "." modname = false ->
   fst (fst (stdlib modname sp w))
   = answer (fst (imp_find_module modname (with_sys_path sp w))) /\
   forall msg : string,
     fst (fst (stdlib modname sp w)) = Raise (ValueError msg) <->
     fst (imp_find_module modname (with_sys_path sp w))
     = Failed (ValueError msg)).
Proof.
  split; intros Hdot.
  - now rewrite stdlib_dotted.
  - rewrite stdlib_top_level by assumption. cbn [fst].
    split; [reflexivity|]. intros msg.
    destruct (fst (imp_find_module modname (with_sys_path sp w)))
      as [|e] eqn:Hr; cbn [answer]; [split; discriminate|].
    destruct e; cbn [is_ImportError]; split; intros H;
      try discriminate H; try (injection H as ->; reflexivity).
Qed.

(** C3: for a name without a dot, [sys.path] after the call is [sys.path]
    before it, whether the lookup finds the module ([True]), ends in
    [ImportError] ([False]) or ends in another exception (raised on). *)
Theorem stdlib_restores_sys_path (modname : string) (sp : list string)
    (w : world FS) :
  contains "." modname = false ->
  sys_path (snd (fst (stdlib modname sp w))) = sys_path w /\
  last (path_writes (snd (stdlib modname sp w))) = Some (sys_path w) /\
  match fst (imp_find_module modname (with_sys_path sp w)) with
  | Done => fst (fst (stdlib modname sp w)) = Return true
  | Failed e =>
      if is_ImportError e
      then fst (fst (stdlib modname sp w)) = Return false
      else fst (fst (stdlib modname sp w)) = Raise e
  end.
Proof.
  intros Hdot. rewrite stdlib_top_level by assumption. simpl.
  split; [reflexivity|]. split; [reflexivity|].
  destruct (fst (imp_find_module modname (with_sys_path sp w))) as [|e];
    simpl; [reflexivity|].
  destruct (is_ImportError e); reflexivity.
Qed.

(** C8: when the lookup depends on the name, [sys.path] and the files only,
    and leaves the files as they are, two calls of [stdlib] in a row on a
    name without a dot end the same way, and [sys.path] after the second is
    [sys.path] before the first. *)
Theorem stdlib_twice (modname : string) (sp : list string) (w : world FS) :
  contains "." modname = false ->
  (forall w1 w2 : world FS,
      sys_path w1 = sys_path w2 -> fs w1 = fs w2 ->
      fst (imp_find_module modname w1) = fst (imp_find_module modname w2)) ->
  (forall w1 : world FS, fs (snd (imp_find_module modname w1)) = fs w1) ->
  let first := stdlib modname sp w in
  let second := stdlib modname sp (snd (fst first)) in
  fst (fst second) = fst (fst first) /\
  sys_path (snd (fst second)) = sys_path w.
Proof.
  intros Hdot Hdep Hfs. cbv zeta.
  rewrite (stdlib_top_level modname sp w) by assumption. simpl.
  rewrite stdlib_top_level by assumption. simpl.
  split; [|reflexivity].
  f_equal. apply Hdep; simpl; [reflexivity|]. now rewrite Hfs.
Qed.

(** C10: for a name with a dot, [stdlib] raises before it touches the
    state: the state after is the state before, [sys.path] is never
    assigned and no lookup is made. *)
Theorem stdlib_dotted_untouched (modname : string) (sp : list string)
    (w : world FS) :
  contains "." modname = true ->
  fst (fst (stdlib modname sp w)) = Raise (ValueError (dotted_msg modname)) /\
  snd (fst (stdlib modname sp w)) = w /\
  path_writes (snd (stdlib modname sp w)) = [] /\
  lookups (snd (stdlib modname sp w)) = [].
Proof.
  intros Hdot. rewrite stdlib_dotted by assumption. repeat split.
Qed.

Lemma after_result {A : Type} (t1 : list event)
    (x : result A * world FS * list event) :
  fst (fst (after t1 x)) = fst (fst x) /\
  snd (fst (after t1 x)) = snd (fst x) /\
  snd (after t1 x) = t1 ++ snd x.
Proof. destruct x as [[r w] t]. repeat split. Qed.

Lemma for_each_print (lines : list string) (w : world FS) :
  for_each lines print w = (Return tt, w, map Print lines).
Proof.
  induction lines as [|l lines IH]; [reflexivity|].
  cbn [for_each map]. unfold mbind, M_bind.
  change (print l w) with (@Return unit tt, w, [Print l]).
  cbv iota beta. now rewrite IH.
Qed.

Lemma stdlib_calls_app (t1 t2 : list event) :
  stdlib_calls (t1 ++ t2) = stdlib_calls t1 ++ stdlib_calls t2.
Proof.
  induction t1 as [|[] t1 IH]; simpl; now rewrite ?IH.
Qed.

Lemma lookups_app (t1 t2 : list event) :
  lookups (t1 ++ t2) = lookups t1 ++ lookups t2.
Proof.
  induction t1 as [|[] t1 IH]; simpl; now rewrite ?IH.
Qed.

Lemma printed_app (t1 t2 : list event) :
  printed (t1 ++ t2) = printed t1 ++ printed t2.
Proof.
  induction t1 as [|[] t1 IH]; simpl; now rewrite ?IH.
Qed.

Lemma trace_of_prints (lines : list string) :
  stdlib_calls (map Print lines) = [] /\
  lookups (map Print lines) = [] /\
  printed (map Print lines) = lines.
Proof.
  induction lines as [|l lines (H1 & H2 & H3)]; simpl; [repeat split|].
  now rewrite H1, H2, H3.
Qed.

(** The loop from any point on: the names it calls [stdlib] with are the
    top-level names not yet seen, each at its first occurrence; every call
    makes its lookup; and at the end [non_stdlib] has grown by the names
    whose lookup ended in [ImportError]. *)
Lemma classify_trace (newmods : list string) :
  forall (non_stdlib : list string) (seen : gset string) (w : world FS),
    let x := classify newmods non_stdlib seen w in
    let tops :=
      List.filter (unseen seen)
        (first_occurrences (map (partition_head ".") newmods)) in
    map fst (lookups (snd x)) = stdlib_calls (snd x) /\
    printed (snd x) = [] /\
    stdlib_calls (snd x) `prefix_of` tops /\
    match fst (fst x) with
    | Return ns =>
        stdlib_calls (snd x) = tops /\
        ns = non_stdlib ++ map fst (List.filter not_found (lookups (snd x)))
    | Raise _ => True
    end.
Proof.
  induction newmods as [|modname rest IH]; intros non_stdlib seen w; cbv zeta.
  - cbn [classify map first_occurrences List.filter].
    split; [reflexivity|]. split; [reflexivity|].
    split; [apply prefix_nil|].
    split; [reflexivity|]. symmetry. apply app_nil_r.
  - cbn [classify map first_occurrences List.filter].
    destruct (unseen seen (partition_head "." modname)) eqn:Hun.
    + unfold mbind, M_bind.
      rewrite stdlib_top_level by apply partition_head_no_dot.
      rewrite unseen_fresh.
      destruct (fst (imp_find_module (partition_head "." modname)
                       (with_sys_path DEFAULT_SYS_PATHS w))) as [|e] eqn:Hr.
      * cbn [answer negb].
        match goal with |- context [after ?t (classify rest ?n ?s ?v)] =>
          destruct (after_result t (classify rest n s v)) as (-> & _ & ->);
          specialize (IH n s v); cbv zeta in IH;
          destruct IH as (IH1 & IH2 & IH3 & IH4)
        end.
        cbn [app stdlib_calls lookups printed map fst List.filter not_found snd
             is_ImportError].
        rewrite IH1, IH2. repeat split.
        -- now apply prefix_cons.
        -- destruct (fst (fst (classify rest _ _ _))); [|exact I].
           destruct IH4 as [-> ->]. split; reflexivity.
      * destruct (is_ImportError e) eqn:He; cbn [answer]; rewrite He.
        -- cbn [negb].
           match goal with |- context [after ?t (classify rest ?n ?s ?v)] =>
             destruct (after_result t (classify rest n s v)) as (-> & _ & ->);
             specialize (IH n s v); cbv zeta in IH;
             destruct IH as (IH1 & IH2 & IH3 & IH4)
           end.
           cbn [app stdlib_calls lookups printed map fst List.filter not_found
                snd].
           rewrite He. cbn [map fst].
           rewrite IH1, IH2. repeat split.
           ++ now apply prefix_cons.
           ++ destruct (fst (fst (classify rest _ _ _))); [|exact I].
              destruct IH4 as [-> ->]. split; [reflexivity|].
              now rewrite <- app_assoc.
        -- cbn [fst snd app stdlib_calls lookups printed map].
           repeat split. apply prefix_cons, prefix_nil.
    + assert (Hin : partition_head "." modname ∈ seen).
      { destruct (decide (partition_head "." modname ∈ seen)) as [Hs|Hs];
          [exact Hs|].
        unfold unseen in Hun. rewrite bool_decide_eq_true_2 in Hun by exact Hs.
        discriminate Hun. }
      rewrite unseen_known by assumption. apply IH.
Qed.




Lemma import_or_skip_trace (modname : string) (w : world FS) :
  stdlib_calls (snd (import_or_skip modname w)) = [] /\
  lookups (snd (import_or_skip modname w)) = [].
Proof.
  unfold import_or_skip, try_except_else, import_module.
  destruct (importlib_import_module modname w) as [[|e] w1]; [now split|].
  destruct e; now split.
Qed.

Lemma imports_trace (args : list string) (w : world FS) :
  stdlib_calls (snd (for_each args import_or_skip w)) = [] /\
  lookups (snd (for_each args import_or_skip w)) = [].
Proof.
  revert w. induction args as [|a args IH]; intros w; [now split|].
  cbn [for_each]. unfold mbind, M_bind.
  destruct (import_or_skip_trace a w) as [H1 H2].
  destruct (import_or_skip a w) as [[[u|e] w1] t1]; cbn [snd] in *;
    [|now split].
  destruct (after_result t1 (for_each args import_or_skip w1)) as (_ & _ & ->).
  destruct (IH w1) as [I1 I2].
  now rewrite stdlib_calls_app, lookups_app, H1, H2, I1, I2.
Qed.

Lemma report_calls (newmods : list string) (w : world FS) :
  Forall (fun n => contains "." n = false /\
                   exists modname, In modname newmods /\
                                   n = partition_head "." modname)
         (stdlib_calls (snd (report newmods w))) /\
  map fst (lookups (snd (report newmods w))) = stdlib_calls (snd (report newmods w)).
Proof.
  split.
  - assert (Hp : stdlib_calls (snd (report newmods w)) `prefix_of`
                   first_occurrences (map (partition_head ".") newmods)).
    { pose proof (classify_trace newmods [] ∅ w) as H. cbv zeta in H.
      rewrite unseen_empty in H. destruct H as (_ & _ & H3 & _).
      unfold report, mbind, M_bind.
      destruct (classify newmods [] ∅ w) as [[[ns|e] w1] t1];
        cbn [fst snd] in *; [|assumption].
      rewrite for_each_print. cbn [after snd].
      destruct (trace_of_prints ns) as (P1 & _).
      now rewrite stdlib_calls_app, P1, app_nil_r. }
    destruct Hp as [k Hk].
    apply List.Forall_forall. intros n Hn.
    assert (Hin : In n (map (partition_head ".") newmods)).
    { apply first_occurrences_elem. rewrite Hk. apply in_or_app. now left. }
    apply in_map_iff in Hin. destruct Hin as (modname & <- & Hm).
    split; [apply partition_head_no_dot|]. now exists modname.
  - pose proof (classify_trace newmods [] ∅ w) as H. cbv zeta in H.
    destruct H as (H1 & _).
    unfold report, mbind, M_bind.
    destruct (classify newmods [] ∅ w) as [[[ns|e] w1] t1];
      cbn [fst snd] in *; [|assumption].
    rewrite for_each_print. cbn [after snd].
    destruct (trace_of_prints ns) as (P1 & P2 & _).
    now rewrite stdlib_calls_app, lookups_app, P1, P2, !app_nil_r.
Qed.

(** [run], step by step *)
Lemma run_unfold (args : option (list string)) (w : world FS) :
  run args w =
  let names := match args with
               | Some l => l
               | None => tail (sys_argv w)
               end in
  match for_each names import_or_skip w with
  | (Return _, w1, t1) =>
      match compare (sys_modules w) (sys_modules w1) ["__mp_main__"] with
      | [] => (Return tt, w1, t1)
      | m :: ms => after t1 (report (m :: ms) w1)
      end
  | (Raise e, w1, t1) => (Raise e, w1, t1)
  end.
Proof.
  unfold run, mbind, M_bind, get_sys_argv, get_sys_modules, mret, M_ret.
  destruct args as [l|]; cbn [after app];
    match goal with |- context [for_each ?l import_or_skip w] =>
      destruct (for_each l import_or_skip w) as [[[u|e] w1] t1] end;
    cbn [after app]; try reflexivity;
    destruct (compare (sys_modules w) (sys_modules w1) ["__mp_main__"])
      as [|m ms]; cbn [after app]; rewrite ?app_nil_r; try reflexivity;
    destruct (report (m :: ms) w1) as [[r w2] t2]; reflexivity.
Qed.

(** C9: every name the driver passes to [stdlib] is the part of an element
    of the diff before its first dot and has no dot, and every such call goes
    on to its lookup; so in a run no call of [stdlib] takes the branch that
    raises [ValueError]. *)
Theorem run_never_dotted (newmods : list string) (args : option (list string))
    (w : world FS) :
  (Forall (fun n => contains "." n = false /\
                    exists modname, In modname newmods /\
                                    n = partition_head "." modname)
          (stdlib_calls (snd (report newmods w))) /\
   map fst (lookups (snd (report newmods w)))
   = stdlib_calls (snd (report newmods w))) /\
  (Forall (fun n => contains "." n = false) (stdlib_calls (snd (run args w))) /\
   map fst (lookups (snd (run args w))) = stdlib_calls (snd (run args w))).
Proof.
  split; [apply report_calls|].
  rewrite run_unfold. cbv zeta.
  set (names := match args with
                | Some l => l
                | None => tail (sys_argv w)
                end).
  destruct (imports_trace names w) as [I1 I2].
  destruct (for_each names import_or_skip w) as [[[u|e] w1] t1];
    cbn [snd] in *; [|rewrite I1, I2; now split].
  destruct (compare (sys_modules w) (sys_modules w1) ["__mp_main__"])
    as [|m ms]; cbn [snd]; [rewrite I1, I2; now split|].
  destruct (report_calls (m :: ms) w1) as [R1 R2].
  destruct (after_result t1 (report (m :: ms) w1)) as (_ & _ & ->).
  rewrite stdlib_calls_app, lookups_app, I1, I2. cbn [app].
  split; [|assumption].
  eapply List.Forall_impl; [|exact R1]. intros n Hn. apply Hn.
Qed.

(** ** More about [stdlib] *)

(** X5: the outcome of [stdlib] does not depend on the [sys.path] in force
    when it is called. *)
Theorem stdlib_ignores_sys_path (modname : string) (sp p : list string)
    (w : world FS) :
  fst (fst (stdlib modname sp (with_sys_path p w)))
  = fst (fst (stdlib modname sp w)).
Proof.
  destruct (contains "." modname) eqn:Hdot.
  - now rewrite !stdlib_dotted.
  - now rewrite !stdlib_top_level.
Qed.

(** X6: when the lookup leaves the state as it finds it, so does
    [stdlib], for every name. *)
Theorem stdlib_keeps_state (modname : string) (sp : list string) (w : world FS) :
  snd (imp_find_module modname (with_sys_path sp w)) = with_sys_path sp w ->
  snd (fst (stdlib modname sp w)) = w.
Proof.
  intros Hsame. destruct (contains "." modname) eqn:Hdot.
  - now rewrite stdlib_dotted.
  - rewrite stdlib_top_level by assumption. cbn [fst snd]. rewrite Hsame.
    now destruct w.
Qed.

(** X7: [stdlib] prints nothing and imports nothing; for a name with a
    dot it neither assigns [sys.path] nor looks anything up, for a name
    without one it assigns [sys.path] twice, first the given list and then
    the list found at entry, and looks up that one name once. *)
Theorem stdlib_trace (modname : string) (sp : list string) (w : world FS) :
  printed (snd (stdlib modname sp w)) = [] /\
  imports (snd (stdlib modname sp w)) = [] /\
  if contains "." modname
  then path_writes (snd (stdlib modname sp w)) = [] /\
       lookups (snd (stdlib modname sp w)) = []
  else path_writes (snd (stdlib modname sp w)) = [sp; sys_path w] /\
       map fst (lookups (snd (stdlib modname sp w))) = [modname].
Proof.
  destruct (contains "." modname) eqn:Hdot.
  - rewrite stdlib_dotted by assumption. repeat split.
  - rewrite stdlib_top_level by assumption. repeat split.
Qed.

(** X15: every entry of [DEFAULT_SYS_PATHS] is an existing directory and
    is [BASEDIR] or its [lib-dynload]; there are at most two, and
    [BASEDIR] comes first when it exists. *)
Theorem default_sys_paths_entries :
  Forall (fun d => os_path_isdir d = true /\
                   (d = BASEDIR \/ d = os_path_join BASEDIR "lib-dynload"))
         DEFAULT_SYS_PATHS /\
  length DEFAULT_SYS_PATHS <= 2 /\
  (os_path_isdir BASEDIR = true -> head DEFAULT_SYS_PATHS = Some BASEDIR).
Proof.
  rewrite default_sys_paths_unfold. cbn [List.filter].
  destruct (os_path_isdir BASEDIR) eqn:Hb;
    destruct (os_path_isdir (os_path_join BASEDIR "lib-dynload")) eqn:Hs;
    cbn [length head]; (split; [|split; [lia|]]); try discriminate;
    try reflexivity;
    repeat (apply Forall_cons; split);
    try apply Forall_nil; try split; auto.
Qed.

(** ** More about the driver loop *)

Lemma classify_sys_path (newmods : list string) :
  forall (non_stdlib : list string) (seen : gset string) (w : world FS),
    sys_path (snd (fst (classify newmods non_stdlib seen w))) = sys_path w.
Proof.
  induction newmods as [|modname rest IH]; intros non_stdlib seen w;
    [reflexivity|].
  cbn [classify].
  destruct (unseen seen (partition_head "." modname)); [|apply IH].
  unfold mbind, M_bind.
  rewrite stdlib_top_level by apply partition_head_no_dot.
  destruct (answer _) as [b|e]; [|reflexivity].
  match goal with |- context [after ?t (classify rest ?n ?s ?v)] =>
    destruct (after_result t (classify rest n s v)) as (_ & -> & _)
  end.
  now rewrite IH.
Qed.

Lemma classify_path_writes (newmods : list string) :
  forall (non_stdlib : list string) (seen : gset string) (w : world FS),
    Forall (fun p => p = DEFAULT_SYS_PATHS \/ p = sys_path w)
           (path_writes (snd (classify newmods non_stdlib seen w))).
Proof.
  induction newmods as [|modname rest IH]; intros non_stdlib seen w;
    [constructor|].
  cbn [classify].
  destruct (unseen seen (partition_head "." modname)); [|apply IH].
  unfold mbind, M_bind.
  rewrite stdlib_top_level by apply partition_head_no_dot.
  destruct (answer _) as [b|e].
  - match goal with |- context [after ?t (classify rest ?n ?s ?v)] =>
      destruct (after_result t (classify rest n s v)) as (_ & _ & ->);
      pose proof (IH n s v) as Hrest
    end.
    cbn [app path_writes].
    apply List.Forall_cons; [now left|].
    apply List.Forall_cons; [now right|].
    exact Hrest.
  - cbn [snd path_writes].
    apply List.Forall_cons; [now left|].
    apply List.Forall_cons; [now right|]. constructor.
Qed.

Lemma report_sys_path_helper (newmods : list string) (w : world FS) :
  sys_path (snd (fst (report newmods w))) = sys_path w.
Proof.
  pose proof (classify_sys_path newmods [] ∅ w) as H.
  unfold report, mbind, M_bind.
  destruct (classify newmods [] ∅ w) as [[[ns|e] w1] t1]; cbn [fst snd] in *;
    [|exact H].
  rewrite for_each_print. exact H.
Qed.

(** X8: whatever the lookups do and however the loop ends, the
    classification of the new modules leaves [sys.path] as it was, and
    every assignment it makes to [sys.path] is of [DEFAULT_SYS_PATHS] or of
    that original list. *)
Theorem report_restores_sys_path (newmods : list string) (w : world FS) :
  sys_path (snd (fst (report newmods w))) = sys_path w /\
  Forall (fun p => p = DEFAULT_SYS_PATHS \/ p = sys_path w)
         (path_writes (snd (report newmods w))).
Proof.
  split; [apply report_sys_path_helper|].
  pose proof (classify_path_writes newmods [] ∅ w) as H.
  unfold report, mbind, M_bind.
  destruct (classify newmods [] ∅ w) as [[[ns|e] w1] t1]; cbn [fst snd] in *;
    [|exact H].
  rewrite for_each_print. cbn [after snd].
  rewrite path_writes_app, (proj2 (trace_of_prints_more ns)), app_nil_r.
  exact H.
Qed.

(** X9: the names the driver prints are distinct, have no dot, and are
    each the top-level name of one of the new modules. *)
Theorem report_prints_top_levels (newmods : list string) (w : world FS) :
  List.NoDup (printed (snd (report newmods w))) /\
  Forall (fun n => contains "." n = false /\
                   exists modname, In modname newmods /\
                                   n = partition_head "." modname)
         (printed (snd (report newmods w))).
Proof.
  pose proof (classify_trace newmods [] ∅ w) as H. cbv zeta in H.
  rewrite unseen_empty in H. destruct H as (H1 & H2 & _ & H4).
  unfold report, mbind, M_bind.
  destruct (classify newmods [] ∅ w) as [[[ns|e] w1] t1]; cbn [fst snd] in *.
  - rewrite for_each_print. cbn [after snd].
    destruct (trace_of_prints ns) as (_ & _ & P3).
    rewrite printed_app, P3, H2. cbn [app].
    destruct H4 as [H4 ->]. cbn [app]. rewrite H4 in H1. split.
    + apply NoDup_map_filter. rewrite H1. apply first_occurrences_NoDup.
    + apply List.Forall_forall. intros n Hn.
      apply In_map_filter in Hn. rewrite H1 in Hn.
      apply first_occurrences_elem, in_map_iff in Hn.
      destruct Hn as (modname & <- & Hm).
      split; [apply partition_head_no_dot|]. now exists modname.
  - rewrite H2. split; constructor.
Qed.

Lemma classify_stable (w0 : world FS) :
  (forall (n : string) (w1 w2 : world FS),
      sys_path w1 = sys_path w2 -> fs w1 = fs w2 ->
      fst (imp_find_module n w1) = fst (imp_find_module n w2)) ->
  (forall (n : string) (w1 : world FS),
      fs (snd (imp_find_module n w1)) = fs w1) ->
  (forall (n : string) (w1 : world FS) (e : exn),
      fst (imp_find_module n w1) = Failed e -> is_ImportError e = true) ->
  forall (newmods non_stdlib : list string) (seen : gset string) (w : world FS),
    fs w = fs w0 ->
    fst (fst (classify newmods non_stdlib seen w))
    = Return (non_stdlib ++
              List.filter
                (fun b => match fst (imp_find_module b
                                       (with_sys_path DEFAULT_SYS_PATHS w0)) with
                          | Done => false
                          | Failed _ => true
                          end)
                (List.filter (unseen seen)
                   (first_occurrences (map (partition_head ".") newmods)))) /\
    fs (snd (fst (classify newmods non_stdlib seen w))) = fs w0.
Proof.
  intros Hdep Hfs Hok.
  induction newmods as [|modname rest IH]; intros non_stdlib seen w Hw.
  - cbn. now rewrite app_nil_r.
  - cbn [classify map first_occurrences List.filter].
    destruct (unseen seen (partition_head "." modname)) eqn:Hun.
    + unfold mbind, M_bind.
      rewrite stdlib_top_level by apply partition_head_no_dot.
      rewrite unseen_fresh. cbn [List.filter].
      assert (Hr : fst (imp_find_module (partition_head "." modname)
                          (with_sys_path DEFAULT_SYS_PATHS w))
                   = fst (imp_find_module (partition_head "." modname)
                            (with_sys_path DEFAULT_SYS_PATHS w0)))
        by (apply Hdep; [reflexivity|exact Hw]).
      rewrite Hr.
      assert (Hw1 : fs (with_sys_path (sys_path w)
                          (snd (imp_find_module (partition_head "." modname)
                                  (with_sys_path DEFAULT_SYS_PATHS w))))
                    = fs w0)
        by (cbn [with_sys_path fs]; rewrite Hfs; exact Hw).
      destruct (fst (imp_find_module (partition_head "." modname)
                       (with_sys_path DEFAULT_SYS_PATHS w0))) as [|e] eqn:Hr0.
      * cbn [answer negb].
        match goal with |- context [after ?t (classify rest ?n ?s ?v)] =>
          destruct (after_result t (classify rest n s v)) as (-> & -> & _);
          destruct (IH n s v Hw1) as [I1 I2]
        end.
        now rewrite I1, I2.
      * cbn [answer]. rewrite (Hok _ _ _ Hr0). cbn [negb].
        match goal with |- context [after ?t (classify rest ?n ?s ?v)] =>
          destruct (after_result t (classify rest n s v)) as (-> & -> & _);
          destruct (IH n s v Hw1) as [I1 I2]
        end.
        rewrite I1, I2, <- app_assoc. now split.
    + assert (Hin : partition_head "." modname ∈ seen).
      { destruct (decide (partition_head "." modname ∈ seen)) as [Hs|Hs];
          [exact Hs|].
        unfold unseen in Hun. rewrite bool_decide_eq_true_2 in Hun by exact Hs.
        discriminate Hun. }
      rewrite unseen_known by assumption. now apply IH.
Qed.

(** X10: when the lookup depends on the name, [sys.path] and the files
    only, leaves the files as they are and fails with [ImportError] only,
    the driver loop ends normally and prints, of the top-level names of the
    new modules in the order of their first occurrences, those that the
    lookup does not find on [DEFAULT_SYS_PATHS]. *)
Theorem report_of_stable_lookup (newmods : list string) (w : world FS) :
  (forall (n : string) (w1 w2 : world FS),
      sys_path w1 = sys_path w2 -> fs w1 = fs w2 ->
      fst (imp_find_module n w1) = fst (imp_find_module n w2)) ->
  (forall (n : string) (w1 : world FS),
      fs (snd (imp_find_module n w1)) = fs w1) ->
  (forall (n : string) (w1 : world FS) (e : exn),
      fst (imp_find_module n w1) = Failed e -> is_ImportError e = true) ->
  fst (fst (report newmods w)) = Return tt /\
  printed (snd (report newmods w))
  = List.filter
      (fun b => match fst (imp_find_module b
                             (with_sys_path DEFAULT_SYS_PATHS w)) with
                | Done => false
                | Failed _ => true
                end)
      (first_occurrences (map (partition_head ".") newmods)).
Proof.
  intros Hdep Hfs Hok.
  destruct (classify_stable w Hdep Hfs Hok newmods [] ∅ w eq_refl) as [Hres _].
  rewrite unseen_empty in Hres. cbn [app] in Hres.
  pose proof (classify_trace newmods [] ∅ w) as H. cbv zeta in H.
  destruct H as (_ & H2 & _).
  unfold report, mbind, M_bind.
  destruct (classify newmods [] ∅ w) as [[[ns|e] w1] t1]; cbn [fst snd] in *;
    [|discriminate].
  injection Hres as ->.
  rewrite for_each_print. cbn [after fst snd].
  destruct (trace_of_prints
              (List.filter
                 (fun b => match fst (imp_find_module b
                                        (with_sys_path DEFAULT_SYS_PATHS w)) with
                           | Done => false
                           | Failed _ => true
                           end)
                 (first_occurrences (map (partition_head ".") newmods))))
    as (_ & _ & P3).
  now rewrite printed_app, P3, H2.
Qed.

(** ** More about [run] *)

Lemma import_or_skip_unfold (modname : string) (w : world FS) :
  import_or_skip modname w =
  (match fst (importlib_import_module modname w) with
   | Failed (OtherError name) => Raise (OtherError name)
   | _ => Return tt
   end,
   snd (importlib_import_module modname w),
   ImportModule modname (fst (importlib_import_module modname w))
   :: map Print (skip_lines (modname,
                             fst (importlib_import_module modname w)))).
Proof.
  unfold import_or_skip, try_except_else, import_module.
  destruct (importlib_import_module modname w) as [[|e] w1]; [reflexivity|].
  destruct e; reflexivity.
Qed.


(** X12: in the import loop the driver prints one line for each import that
    ended in [ImportError], [KeyError] or [ValueError], in the order of the
    attempts, and nothing else; it does not call [stdlib] and does not
    assign [sys.path]. *)
Theorem imports_printed (args : list string) (w : world FS) :
  printed (snd (for_each args import_or_skip w))
  = concat (map skip_lines (imports (snd (for_each args import_or_skip w)))) /\
  stdlib_calls (snd (for_each args import_or_skip w)) = [] /\
  path_writes (snd (for_each args import_or_skip w)) = [].
Proof.
  revert w. induction args as [|a args IH]; intros w; [repeat split|].
  cbn [for_each]. unfold mbind, M_bind. rewrite import_or_skip_unfold.
  set (r := fst (importlib_import_module a w)).
  destruct (trace_of_prints (skip_lines (a, r))) as (P1 & _ & P3).
  destruct (trace_of_prints_more (skip_lines (a, r))) as (P4 & P5).
  assert (Hhere :
    printed (ImportModule a r :: map Print (skip_lines (a, r)))
    = skip_lines (a, r) /\
    imports (ImportModule a r :: map Print (skip_lines (a, r))) = [(a, r)] /\
    stdlib_calls (ImportModule a r :: map Print (skip_lines (a, r))) = [] /\
    path_writes (ImportModule a r :: map Print (skip_lines (a, r))) = []).
  { cbn [printed imports stdlib_calls path_writes]. now rewrite P1, P3, P4, P5. }
  destruct Hhere as (E1 & E2 & E3 & E4).
  assert (Hstop :
    printed (ImportModule a r :: map Print (skip_lines (a, r)))
    = concat (map skip_lines
                (imports (ImportModule a r :: map Print (skip_lines (a, r))))) /\
    stdlib_calls (ImportModule a r :: map Print (skip_lines (a, r))) = [] /\
    path_writes (ImportModule a r :: map Print (skip_lines (a, r))) = []).
  { rewrite E1, E2, E3, E4. cbn [map concat]. now rewrite app_nil_r. }
  destruct r as [|[msg| | |name]];
    try exact Hstop;
    match goal with |- context [after ?t (for_each args ?f ?v)] =>
      destruct (after_result t (for_each args f v)) as (_ & _ & ->);
      destruct (IH v) as (I1 & I2 & I3)
    end;
    rewrite printed_app, imports_app, stdlib_calls_app, path_writes_app,
      E1, E2, E3, E4, I1, I2, I3; cbn [app map concat]; repeat split.
Qed.

Lemma imports_no_path_writes (args : list string) (w : world FS) :
  path_writes (snd (for_each args import_or_skip w)) = [].
Proof.
  revert w. induction args as [|a args IH]; intros w; [reflexivity|].
  cbn [for_each]. unfold mbind, M_bind. rewrite import_or_skip_unfold.
  assert (Hhere : path_writes
            (ImportModule a (fst (importlib_import_module a w))
             :: map Print (skip_lines (a, fst (importlib_import_module a w))))
          = [])
    by (cbn [path_writes]; apply trace_of_prints_more).
  destruct (fst (importlib_import_module a w)) as [|[msg| | |name]];
    try exact Hhere;
    match goal with |- context [after ?t (for_each args ?f ?v)] =>
      destruct (after_result t (for_each args f v)) as (_ & _ & ->)
    end;
    now rewrite path_writes_app, Hhere, IH.
Qed.

(** X13: when every name in [sys.modules] after the import loop was there
    before it or is [__mp_main__], [run] classifies nothing: it does not
    call [stdlib], makes no lookup and does not assign [sys.path]. *)
Theorem run_nothing_new (args : option (list string)) (w : world FS) :
  (forall x : string,
      x ∈ sys_modules
            (snd (fst (for_each (match args with
                                 | Some l => l
                                 | None => tail (sys_argv w)
                                 end) import_or_skip w))) ->
      x ∈ sys_modules w \/ x = "__mp_main__") ->
  stdlib_calls (snd (run args w)) = [] /\
  lookups (snd (run args w)) = [] /\
  path_writes (snd (run args w)) = [].
Proof.
  intros Hold. rewrite run_unfold. cbv zeta.
  set (names := match args with
                | Some l => l
                | None => tail (sys_argv w)
                end) in *.
  destruct (imports_trace names w) as [I1 I2].
  pose proof (imports_no_path_writes names w) as I3.
  destruct (for_each names import_or_skip w) as [[[u|e] w1] t1];
    cbn [fst snd] in *; [|now repeat split].
  rewrite compare_nothing_new; [now repeat split|].
  intros x Hx. destruct (Hold x Hx) as [Hi| ->]; [now left|].
  right. apply list_elem_of_here.
Qed.

(** X14: [sys.path] at the end of [run] is [sys.path] as the imports left
    it: the classification does not change it. *)
Theorem run_sys_path (args : option (list string)) (w : world FS) :
  sys_path (snd (fst (run args w)))
  = sys_path (snd (fst (for_each (match args with
                                  | Some l => l
                                  | None => tail (sys_argv w)
                                  end) import_or_skip w))).
Proof.
  rewrite run_unfold. cbv zeta.
  destruct (for_each _ import_or_skip w) as [[[u|e] w1] t1]; [|reflexivity].
  cbn [fst snd].
  destruct (compare (sys_modules w) (sys_modules w1) ["__mp_main__"])
    as [|m ms]; [reflexivity|].
  destruct (after_result t1 (report (m :: ms) w1)) as (_ & -> & _).
  apply report_sys_path_helper.
Qed.

(** ** The entry point *)

Context (environ : gmap string string).
Local Abbreviation main :=
  (main imp_find_module importlib_import_module BASEDIR os_path_join
     os_path_isdir environ) (only parsing).

(** X17: when the script is not run as [__main__], or the variable [_] of
    the environment ends with [/ipython], [/ipython2] or [/ipython3], the
    entry point does nothing. *)
Theorem main_suppressed (dunder_name p suffix : string) (w : world FS) :
  (dunder_name <> "__main__" -> main dunder_name w = (Return tt, w, [])) /\
  (In suffix ["/ipython"; "/ipython2"; "/ipython3"] ->
   environ !! "_" = Some (p +:+ suffix) ->
   main dunder_name w = (Return tt, w, [])).
Proof.
  unfold main. split.
  - intros Hn. apply String.eqb_neq in Hn. now rewrite Hn.
  - intros Hs He.
    assert (Hl : launched_from_ipython environ = true).
    { unfold launched_from_ipython. rewrite He. cbn [default].
      apply existsb_exists. exists suffix. split; [exact Hs|apply endswith_app]. }
    rewrite Hl. now rewrite andb_false_r.
Qed.

(** X18: run as [__main__] with the variable [_] unset, or set to a value
    that ends with none of [/ipython], [/ipython2] and [/ipython3], the
    entry point is [run()]: the names come from [sys.argv]. *)
Theorem main_runs (w : world FS) :
  (forall p suffix : string,
      In suffix ["/ipython"; "/ipython2"; "/ipython3"] ->
      default "" (environ !! "_") <> p +:+ suffix) ->
  main "__main__" w = run None w.
Proof.
  intros Hno. unfold main.
  assert (Hl : launched_from_ipython environ = false).
  { unfold launched_from_ipython. cbv zeta.
    destruct (existsb _ _) eqn:Hex; [|reflexivity].
    apply existsb_exists in Hex. destruct Hex as (suffix & Hs & Hend).
    apply endswith_elim in Hend. destruct Hend as [p Hp].
    destruct (Hno p suffix Hs Hp). }
  now rewrite Hl.
Qed.

End ScriptFacts.

(** ** The script and the theorems at work on the small import system *)

Example first_occurrences_example :
  first_occurrences ["requests"; "_thread"; "requests"; "os"; "_thread"]
  = ["requests"; "_thread"; "os"].
Proof. reflexivity. Qed.

Example stdlib_example :
  stdlib toy_find_module "os" ["/usr/lib/python3"] toy_world
  = (Return true, toy_world,
     [CallStdlib "os"; SetSysPath ["/usr/lib/python3"]; FindModule "os" Done;
      SetSysPath ["/site"; "/usr/lib/python3"]]).
Proof. vm_compute. reflexivity. Qed.

Example report_example :
  let t := snd (report toy_find_module "/usr/lib/python3" toy_join toy_isdir
                  ["requests"; "requests.models"; "_thread"] toy_world) in
  stdlib_calls t = ["requests"; "_thread"] /\ printed t = ["requests"].
Proof. vm_compute. split; reflexivity. Qed.

Example report_raise_example :
  let x := report nul_find_module "/usr/lib/python3" toy_join toy_isdir
             ["requests"; nul_name; "_thread"] toy_world in
  fst (fst x) = Raise (ValueError "embedded null byte") /\
  stdlib_calls (snd x) = ["requests"; nul_name] /\
  printed (snd x) = [] /\
  sys_path (snd (fst x)) = sys_path toy_world.
Proof. vm_compute. repeat split; reflexivity. Qed.

Example run_example :
  let t := snd (run toy_find_module toy_import_module "/usr/lib/python3"
                  toy_join toy_isdir (Some ["os"; "requests"; "zzz"])
                  toy_world) in
  stdlib_calls t = ["os"; "requests"] /\
  printed t = ["ImportError for " +:+ dquote +:+ "zzz" +:+ dquote +:+ ": skipping";
               "requests"].
Proof. vm_compute. split; reflexivity. Qed.

Lemma compare_exact_witness :
  "requests" ∈ compare ["os"; "sys"]
                 ["os"; "sys"; "requests"; "__mp_main__"] ["__mp_main__"] /\
  "requests" ∉ ["__mp_main__"].
Proof.
  assert (H : "requests" ∈ compare ["os"; "sys"]
                ["os"; "sys"; "requests"; "__mp_main__"] ["__mp_main__"]).
  { vm_compute. apply list_elem_of_here. }
  split; [exact H|].
  exact (proj2 (proj2 (compare_exact ["os"; "sys"]
                         ["os"; "sys"; "requests"; "__mp_main__"]
                         ["__mp_main__"])) "requests" H).
Defined.

Lemma stdlib_value_error_witness :
  (contains "." "os.path" = true /\
   fst (fst (stdlib toy_find_module "os.path" ["/usr/lib/python3"] toy_world))
   = Raise (ValueError (dotted_msg "os.path"))) /\
  (contains "." "requests" = false /\
   fst (fst (stdlib toy_find_module "requests" ["/usr/lib/python3"] toy_world))
   = answer (fst (toy_find_module "requests"
                    (with_sys_path ["/usr/lib/python3"] toy_world)))) /\
  (contains "." nul_name = false /\
   fst (nul_find_module nul_name (with_sys_path ["/usr/lib/python3"] toy_world))
   = Failed (ValueError "embedded null byte") /\
   fst (fst (stdlib nul_find_module nul_name ["/usr/lib/python3"] toy_world))
   = Raise (ValueError "embedded null byte")).
Proof.
  assert (H1 : contains "." "os.path" = true) by reflexivity.
  assert (H2 : contains "." "requests" = false) by reflexivity.
  assert (H3 : contains "." nul_name = false) by reflexivity.
  assert (H4 : fst (nul_find_module nul_name
                      (with_sys_path ["/usr/lib/python3"] toy_world))
               = Failed (ValueError "embedded null byte")) by reflexivity.
  split; [|split].
  - split; [exact H1|].
    exact (proj1 (stdlib_value_error toy_find_module "os.path"
                    ["/usr/lib/python3"] toy_world) H1).
  - split; [exact H2|].
    exact (proj1 (proj2 (stdlib_value_error toy_find_module "requests"
                           ["/usr/lib/python3"] toy_world) H2)).
  - split; [exact H3|]. split; [exact H4|].
    exact (proj2 (proj2 (proj2 (stdlib_value_error nul_find_module nul_name
                                  ["/usr/lib/python3"] toy_world) H3)
                    "embedded null byte") H4).
Defined.

(** The claim as it was stated fails: a name without a dot for which
    [stdlib] raises [ValueError], the lookup ending in one. *)
Lemma stdlib_value_error_counterexample :
  ~ (forall modname : string,
        contains "." modname = false ->
        forall msg : string,
          fst (fst (stdlib nul_find_module modname ["/usr/lib/python3"]
                      toy_world))
          <> Raise (ValueError msg)).
Proof.
  intros H. apply (H nul_name eq_refl "embedded null byte").
  vm_compute. reflexivity.
Qed.

Lemma stdlib_restores_sys_path_witness :
  contains "." "requests" = false /\
  sys_path (snd (fst (stdlib toy_find_module "requests" ["/usr/lib/python3"]
                        toy_world)))
  = ["/site"; "/usr/lib/python3"] /\
  fst (fst (stdlib toy_find_module "requests" ["/usr/lib/python3"] toy_world))
  = Return false.
Proof.
  assert (H : contains "." "requests" = false) by reflexivity.
  destruct (stdlib_restores_sys_path toy_find_module "requests"
              ["/usr/lib/python3"] toy_world H) as (Hpath & _ & Hres).
  split; [exact H|]. split; [exact Hpath|exact Hres].
Defined.

Lemma stdlib_twice_witness :
  contains "." "os" = false /\
  fst (fst (stdlib toy_find_module "os" ["/usr/lib/python3"]
              (snd (fst (stdlib toy_find_module "os" ["/usr/lib/python3"]
                           toy_world)))))
  = fst (fst (stdlib toy_find_module "os" ["/usr/lib/python3"] toy_world)) /\
  sys_path (snd (fst (stdlib toy_find_module "os" ["/usr/lib/python3"]
              (snd (fst (stdlib toy_find_module "os" ["/usr/lib/python3"]
                           toy_world))))))
  = sys_path toy_world.
Proof.
  assert (H : contains "." "os" = false) by reflexivity.
  assert (Hdep : forall w1 w2 : world toy_fs,
             sys_path w1 = sys_path w2 -> fs w1 = fs w2 ->
             fst (toy_find_module "os" w1) = fst (toy_find_module "os" w2)).
  { intros w1 w2 Hp Hf. unfold toy_find_module. simpl.
    rewrite Hp, Hf. reflexivity. }
  assert (Hfs : forall w1 : world toy_fs,
             fs (snd (toy_find_module "os" w1)) = fs w1)
    by (intros w1; reflexivity).
  split; [exact H|].
  exact (stdlib_twice toy_find_module "os" ["/usr/lib/python3"] toy_world
           H Hdep Hfs).
Defined.

Lemma stdlib_dotted_untouched_witness :
  contains "." "requests.models" = true /\
  snd (fst (stdlib toy_find_module "requests.models" ["/usr/lib/python3"]
              toy_world)) = toy_world /\
  path_writes (snd (stdlib toy_find_module "requests.models"
                      ["/usr/lib/python3"] toy_world)) = [].
Proof.
  assert (H : contains "." "requests.models" = true) by reflexivity.
  destruct (stdlib_dotted_untouched toy_find_module "requests.models"
              ["/usr/lib/python3"] toy_world H) as (_ & Hw & Hp & _).
  split; [exact H|]. split; [exact Hw|exact Hp].
Defined.

Lemma compare_same_names_witness :
  (forall x : string,
      x ∈ ["a"] \/ x ∈ ["b"] <-> x ∈ ["b"; "a"; "a"] \/ x ∈ ([] : list string)) /\
  compare ["a"] ["a"; "b"; "c"] ["b"] = compare ["b"; "a"; "a"] ["a"; "b"; "c"] [].
Proof.
  assert (H : forall x : string,
             x ∈ ["a"] \/ x ∈ ["b"]
             <-> x ∈ ["b"; "a"; "a"] \/ x ∈ ([] : list string))
    by (intros x; rewrite !elem_of_cons, !elem_of_nil; tauto).
  split; [exact H|].
  exact (compare_same_names ["a"] ["b"] ["b"; "a"; "a"] [] ["a"; "b"; "c"] H).
Defined.

Lemma stdlib_keeps_state_witness :
  snd (toy_find_module "os" (with_sys_path ["/usr/lib/python3"] toy_world))
  = with_sys_path ["/usr/lib/python3"] toy_world /\
  snd (fst (stdlib toy_find_module "os" ["/usr/lib/python3"] toy_world))
  = toy_world.
Proof.
  assert (H : snd (toy_find_module "os"
                     (with_sys_path ["/usr/lib/python3"] toy_world))
              = with_sys_path ["/usr/lib/python3"] toy_world) by reflexivity.
  split; [exact H|].
  exact (stdlib_keeps_state toy_find_module "os" ["/usr/lib/python3"]
           toy_world H).
Defined.

Lemma default_sys_paths_entries_witness :
  toy_isdir "/usr/lib/python3" = true /\
  head (DEFAULT_SYS_PATHS "/usr/lib/python3" toy_join toy_isdir)
  = Some "/usr/lib/python3".
Proof.
  assert (H : toy_isdir "/usr/lib/python3" = true) by reflexivity.
  split; [exact H|].
  exact (proj2 (proj2 (default_sys_paths_entries "/usr/lib/python3" toy_join
                         toy_isdir)) H).
Defined.

Lemma toy_find_module_depends :
  forall (n : string) (w1 w2 : world toy_fs),
    sys_path w1 = sys_path w2 -> fs w1 = fs w2 ->
    fst (toy_find_module n w1) = fst (toy_find_module n w2).
Proof.
  intros n w1 w2 Hp Hf. unfold toy_find_module. cbn [fst].
  rewrite Hp, Hf. reflexivity.
Defined.

Lemma toy_find_module_import_error :
  forall (n : string) (w1 : world toy_fs) (e : exn),
    fst (toy_find_module n w1) = Failed e -> is_ImportError e = true.
Proof.
  intros n w1 e. unfold toy_find_module. cbn [fst].
  destruct (toy_has (fs w1) (sys_path w1) n); [discriminate|].
  intros [= <-]. reflexivity.
Defined.

Lemma report_of_stable_lookup_witness :
  fst (fst (report toy_find_module "/usr/lib/python3" toy_join toy_isdir
              ["requests"; "requests.models"; "_thread"] toy_world))
  = Return tt /\
  printed (snd (report toy_find_module "/usr/lib/python3" toy_join toy_isdir
                  ["requests"; "requests.models"; "_thread"] toy_world))
  = List.filter
      (fun b => match fst (toy_find_module b
                             (with_sys_path
                                (DEFAULT_SYS_PATHS "/usr/lib/python3" toy_join
                                   toy_isdir) toy_world)) with
                | Done => false
                | Failed _ => true
                end)
      (first_occurrences
         (map (partition_head ".") ["requests"; "requests.models"; "_thread"])).
Proof.
  exact (report_of_stable_lookup toy_find_module "/usr/lib/python3" toy_join
           toy_isdir ["requests"; "requests.models"; "_thread"] toy_world
           toy_find_module_depends
           (fun n w1 => eq_refl)
           toy_find_module_import_error).
Defined.

Lemma run_nothing_new_witness :
  (forall x : string,
      x ∈ sys_modules
            (snd (fst (for_each ["zzz"] (import_or_skip toy_import_module)
                         toy_world))) ->
      x ∈ sys_modules toy_world \/ x = "__mp_main__") /\
  stdlib_calls
    (snd (run toy_find_module toy_import_module "/usr/lib/python3" toy_join
            toy_isdir (Some ["zzz"]) toy_world))
  = [].
Proof.
  assert (H : forall x : string,
             x ∈ sys_modules
                   (snd (fst (for_each ["zzz"]
                                (import_or_skip toy_import_module)
                                toy_world))) ->
             x ∈ sys_modules toy_world \/ x = "__mp_main__")
    by (intros x Hx; left; exact Hx).
  split; [exact H|].
  exact (proj1 (run_nothing_new toy_find_module toy_import_module
                  "/usr/lib/python3" toy_join toy_isdir (Some ["zzz"])
                  toy_world H)).
Defined.

Lemma main_suppressed_witness :
  ("pylibcheck" <> "__main__" /\
   main toy_find_module toy_import_module "/usr/lib/python3" toy_join
     toy_isdir ∅ "pylibcheck" toy_world = (Return tt, toy_world, [])) /\
  (In "/ipython3" ["/ipython"; "/ipython2"; "/ipython3"] /\
   ({["_" := "/usr/bin/ipython3"]} : gmap string string) !! "_"
   = Some ("/usr/bin" +:+ "/ipython3") /\
   main toy_find_module toy_import_module "/usr/lib/python3" toy_join
     toy_isdir {["_" := "/usr/bin/ipython3"]} "__main__" toy_world
   = (Return tt, toy_world, [])).
Proof.
  assert (H1 : "pylibcheck" <> "__main__") by discriminate.
  assert (H2 : In "/ipython3" ["/ipython"; "/ipython2"; "/ipython3"])
    by (right; right; left; reflexivity).
  assert (H3 : ({["_" := "/usr/bin/ipython3"]} : gmap string string) !! "_"
               = Some ("/usr/bin" +:+ "/ipython3"))
    by apply lookup_singleton_eq.
  split.
  - split; [exact H1|].
    exact (proj1 (main_suppressed toy_find_module toy_import_module
                    "/usr/lib/python3" toy_join toy_isdir ∅
                    "pylibcheck" "" "" toy_world) H1).
  - split; [exact H2|]. split; [exact H3|].
    exact (proj2 (main_suppressed toy_find_module toy_import_module
                    "/usr/lib/python3" toy_join toy_isdir
                    {["_" := "/usr/bin/ipython3"]}
                    "__main__" "/usr/bin" "/ipython3" toy_world) H2 H3).
Defined.

Lemma main_runs_witness :
  (forall p suffix : string,
      In suffix ["/ipython"; "/ipython2"; "/ipython3"] ->
      default "" ((∅ : gmap string string) !! "_") <> p +:+ suffix) /\
  main toy_find_module toy_import_module "/usr/lib/python3" toy_join toy_isdir
    ∅ "__main__" toy_world
  = run toy_find_module toy_import_module "/usr/lib/python3" toy_join toy_isdir
      None toy_world.
Proof.
  assert (H : forall p suffix : string,
             In suffix ["/ipython"; "/ipython2"; "/ipython3"] ->
             default "" ((∅ : gmap string string) !! "_") <> p +:+ suffix).
  { intros p suffix Hs. rewrite lookup_empty. cbn [default].
    destruct Hs as [<-|[<-|[<-|[]]]]; destruct p; discriminate. }
  split; [exact H|].
  exact (main_runs toy_find_module toy_import_module "/usr/lib/python3"
           toy_join toy_isdir ∅ toy_world H).
Defined.
